(** * Branch Out recipients search: the filter pipeline of [streamlit_app.py]

    A shallow embedding of the Streamlit script: the loader, the schema
    check, the two filters, the column reordering and the CSV export, with
    the pandas and [re] calls the script makes modelled by the behaviour
    they have on the data the script hands them.

    Text is a [string] whose characters are read as the code points 0..255
    of a Python [str]; case folding and white space follow Python on that
    range. *)

From Stdlib Require Import List String Ascii Bool Arith Lia Permutation.
From Stdlib.Strings Require Import Byte.
From Stdlib Require Import DecimalString DecimalNat.
Import ListNotations.
Open Scope string_scope.

(* ------------------------------------------------------------------ *)
(** ** Text *)

Module Text.

(** [str.isspace] on one character: TAB..CR, FS..US, space, NEL, NBSP. *)
Definition isspace (c : ascii) : bool :=
  let n := nat_of_ascii c in
  (((9 <=? n) && (n <=? 13)) || ((28 <=? n) && (n <=? 32))
   || (n =? 133) || (n =? 160))%nat.

(** Lower-casing of one character, as [re.IGNORECASE] folds it:
    A..Z and the accented capitals 192..222 (but the sign 215). *)
Definition lower (c : ascii) : ascii :=
  let n := nat_of_ascii c in
  if (((65 <=? n) && (n <=? 90))
      || ((192 <=? n) && (n <=? 222) && negb (n =? 215)))%nat
  then ascii_of_nat (n + 32) else c.

Fixpoint lstrip (l : list ascii) : list ascii :=
  match l with
  | c :: l' => if isspace c then lstrip l' else l
  | [] => []
  end.

Definition strip_chars (l : list ascii) : list ascii :=
  rev (lstrip (rev (lstrip l))).

(** [s.strip()] *)
Definition strip (s : string) : string :=
  string_of_list_ascii (strip_chars (list_ascii_of_string s)).

(** Truth value of a [str] in a condition: non-empty. *)
Definition truthy (s : string) : bool :=
  match s with EmptyString => false | String _ _ => true end.

(** [sep.join(parts)] *)
Fixpoint join (sep : string) (parts : list string) : string :=
  match parts with
  | [] => ""
  | [p] => p
  | p :: ps => p ++ sep ++ join sep ps
  end.

(** Case-insensitive "[q] occurs in [s]", the substring test the notes of
    the script promise. *)
Fixpoint ci_prefix (q s : list ascii) : bool :=
  match q, s with
  | [], _ => true
  | _ :: _, [] => false
  | a :: q', b :: s' => Ascii.eqb (lower a) (lower b) && ci_prefix q' s'
  end.

Fixpoint ci_find (q s : list ascii) : bool :=
  ci_prefix q s
  || match s with [] => false | _ :: s' => ci_find q s' end.

Definition ci_contains (q s : string) : bool :=
  ci_find (list_ascii_of_string q) (list_ascii_of_string s).

End Text.

(* ------------------------------------------------------------------ *)
(** ** Exceptions *)

Inductive exn : Type :=
| KeyError (label : string)        (* a column label that is not there *)
| re_error (pattern : string)      (* [re.compile] rejects the pattern *)
| NotModelled (pattern : string).  (* regex syntax outside the fragment
                                      of module [Re] below *)

Inductive result (A : Type) : Type :=
| Ok (a : A)
| Raise (e : exn).
Arguments Ok {A} a.
Arguments Raise {A} e.

Definition bind {A B} (r : result A) (k : A -> result B) : result B :=
  match r with
  | Ok a => k a
  | Raise e => Raise e
  end.

Declare Scope result_scope.
Delimit Scope result_scope with result.
Notation "x <- r ;; k" := (bind r (fun x => k))
  (at level 61, r at next level, right associativity) : result_scope.
Open Scope result_scope.

Fixpoint mapM {A B} (f : A -> result B) (l : list A) : result (list B) :=
  match l with
  | [] => Ok []
  | a :: l' => b <- f a ;; bs <- mapM f l' ;; Ok (b :: bs)
  end.

(* ------------------------------------------------------------------ *)
(** ** The fragment of Python's regular expressions that is modelled

    [Series.str.contains(pat, case=False)] leaves [regex] at its default
    [True]: the query is compiled with [re.compile(pat, re.IGNORECASE)]
    and a cell matches when [search] finds a match anywhere in it. *)

Module Re.

Inductive atom : Type :=
| Lit (c : ascii)    (* one character, compared after lower-casing *)
| AnyChar.           (* [.]: any character but a newline *)

Definition newline : ascii := ascii_of_nat 10.

(** sre_parse's SPECIAL_CHARS, and the closing parenthesis that is an
    error on its own. *)
Definition special (c : ascii) : bool :=
  existsb (Ascii.eqb c)
    (list_ascii_of_string ".\[{()*+?^$|").

Definition ascii_alnum (c : ascii) : bool :=
  let n := nat_of_ascii c in
  (((48 <=? n) && (n <=? 57)) || ((65 <=? n) && (n <=? 90))
   || ((97 <=? n) && (n <=? 122)))%nat.

Definition backslash : ascii := ascii_of_nat 92.
Definition dot : ascii := ascii_of_nat 46.

(** The parser: plain characters, [.], and a backslash before a
    character that is no ASCII letter or digit (which stands for that
    character).  A pattern that ends in a lone backslash is an error
    ("bad escape (end of pattern)"); every other use of a special
    character is outside the fragment. *)
Fixpoint parse (whole : string) (p : list ascii) : result (list atom) :=
  match p with
  | [] => Ok []
  | c :: p' =>
      if Ascii.eqb c backslash then
        match p' with
        | [] => Raise (re_error whole)
        | d :: p'' =>
            if ascii_alnum d then Raise (NotModelled whole)
            else r <- parse whole p'' ;; Ok (Lit d :: r)
        end
      else if Ascii.eqb c dot then
        r <- parse whole p' ;; Ok (AnyChar :: r)
      else if special c then Raise (NotModelled whole)
      else r <- parse whole p' ;; Ok (Lit c :: r)
  end.

Definition atom_matches (a : atom) (c : ascii) : bool :=
  match a with
  | Lit p => Ascii.eqb (Text.lower c) (Text.lower p)
  | AnyChar => negb (Ascii.eqb c newline)
  end.

(** [pattern.match] at the head of [s]. *)
Fixpoint match_here (r : list atom) (s : list ascii) : bool :=
  match r, s with
  | [], _ => true
  | _ :: _, [] => false
  | a :: r', c :: s' => atom_matches a c && match_here r' s'
  end.

(** [pattern.search(s) is not None] *)
Fixpoint search (r : list atom) (s : list ascii) : bool :=
  match_here r s
  || match s with [] => false | _ :: s' => search r s' end.

(** [re.compile(pat, re.IGNORECASE)], as the test it induces on text. *)
Definition compile_ic (pat : string) : result (string -> bool) :=
  r <- parse pat (list_ascii_of_string pat) ;;
  Ok (fun s => search r (list_ascii_of_string s)).

End Re.

(* ------------------------------------------------------------------ *)
(** ** Data frames *)

(** A cell is missing ([NaN]) or a value, kept as the text [str] gives
    for it. *)
Inductive cell : Type :=
| NaN
| Val (text : string).

Definition Series := list cell.

(** A frame: the labels of its columns, and its rows, each row holding
    the cells in the order of the labels.  [read_csv] makes the labels
    distinct and every row as long as the header. *)
Record DataFrame : Type := mkDF {
  columns : list string;
  rows : list (list cell)
}.

(** [pd.DataFrame()] *)
Definition empty_frame : DataFrame := mkDF [] [].

(** [df.empty]: some axis has length 0. *)
Definition df_empty (df : DataFrame) : bool :=
  match columns df, rows df with
  | [], _ | _, [] => true
  | _, _ => false
  end.

(** Position of a label in the column index. *)
Fixpoint get_loc (label : string) (cols : list string) : option nat :=
  match cols with
  | [] => None
  | c :: cols' =>
      if String.eqb c label then Some 0
      else option_map S (get_loc label cols')
  end.

(** [label in df.columns] *)
Definition has_column (df : DataFrame) (label : string) : bool :=
  existsb (String.eqb label) (columns df).

Definition at_pos (i : nat) (row : list cell) : cell := nth i row NaN.

(** [df[label]] *)
Definition getitem (df : DataFrame) (label : string) : result Series :=
  match get_loc label (columns df) with
  | Some i => Ok (map (at_pos i) (rows df))
  | None => Raise (KeyError label)
  end.

(** [series.astype(str)]: every cell becomes text, and a missing cell
    becomes the text of the float it is stored as (pandas 1 and 2 turn
    every element into [str(element)], the missing ones too). *)
Definition str_of_cell (c : cell) : string :=
  match c with
  | NaN => "nan"
  | Val t => t
  end.

Definition astype_str (s : Series) : Series :=
  map (fun c => Val (str_of_cell c)) s.

(** [df[mask]]: the rows at which the mask holds, in order. *)
Fixpoint boolean_index (rs : list (list cell)) (mask : list bool)
  : list (list cell) :=
  match rs, mask with
  | r :: rs', b :: mask' =>
      if b then r :: boolean_index rs' mask' else boolean_index rs' mask'
  | _, _ => []
  end.

Definition select_rows (df : DataFrame) (mask : list bool) : DataFrame :=
  mkDF (columns df) (boolean_index (rows df) mask).

(** Truth value of a list in a condition: non-empty. *)
Definition nonempty {A} (l : list A) : bool :=
  match l with [] => false | _ :: _ => true end.

(** [m1 |= m2] on two masks over the same rows. *)
Fixpoint or_mask (m1 m2 : list bool) : list bool :=
  match m1, m2 with
  | a :: m1', b :: m2' => (a || b) :: or_mask m1' m2'
  | _, _ => []
  end.

(* ------------------------------------------------------------------ *)
(** ** The script's constants *)

Definition CSV_PATH : string := "BONF Research Table MASTER Recipients.csv".

Definition COL_RECIPIENTS : string := "Recipients".
Definition COL_SUPS : string := "Supervisors".
Definition COL_PROPOSAL : string := "Proposal".
Definition COL_LAY : string := "Lay_Summary".

Definition required : list string :=
  [COL_RECIPIENTS; COL_SUPS; COL_PROPOSAL; COL_LAY].

(** The options of the multiselect. *)
Inductive field : Type := Proposal | Lay_Summary | Supervisors.

Definition field_options : list field := [Proposal; Lay_Summary; Supervisors].
Definition default_fields : list field := [Proposal; Lay_Summary].

(** The dictionary looked up at every turn of the loop over the fields. *)
Definition field_col (f : field) : string :=
  match f with
  | Proposal => COL_PROPOSAL
  | Lay_Summary => COL_LAY
  | Supervisors => COL_SUPS
  end.

(* ------------------------------------------------------------------ *)
(** ** Filtering logic *)

Section Filtering.

(** [re.compile(pat, re.IGNORECASE)] followed by [search]: the regex
    engine the script relies on.  [Re.compile_ic] is the instance used
    wherever a pattern is run. *)
Variable re_compile_ic : string -> result (string -> bool).

(** [series.str.contains(pat, case=False, na=na)] *)
Definition str_contains (s : Series) (pat : string) (na : bool)
  : result (list bool) :=
  m <- re_compile_ic pat ;;
  Ok (map (fun c => match c with NaN => na | Val t => m t end) s).

(** Lines 71-72. *)
Definition recipients_filter (recipient_query : string)
  (results : DataFrame) : result DataFrame :=
  if Text.truthy (Text.strip recipient_query) then
    col <- getitem results COL_RECIPIENTS ;;
    mask <- str_contains (astype_str col) (Text.strip recipient_query)
                         false ;;
    Ok (select_rows results mask)
  else Ok results.

(** One turn of the loop of lines 77-83. *)
Definition field_mask (content_query : string) (results : DataFrame)
  (f : field) : result (list bool) :=
  col <- getitem results (field_col f) ;;
  str_contains (astype_str col) content_query false.

(** Lines 84-87. *)
Definition any_mask (masks : list (list bool)) : option (list bool) :=
  match masks with
  | [] => None
  | m0 :: ms => Some (fold_left or_mask ms m0)
  end.

(** Lines 75-88. *)
Definition content_filter (content_query : string)
  (selected_fields : list field) (results : DataFrame)
  : result DataFrame :=
  if Text.truthy (Text.strip content_query)
     && nonempty selected_fields
  then
    masks <- mapM (field_mask content_query results) selected_fields ;;
    match any_mask masks with
    | Some m => Ok (select_rows results m)
    | None => Ok results
    end
  else Ok results.

(** Lines 68-88: the filtered view. *)
Definition Filtered (df : DataFrame) (recipient_query content_query : string)
  (selected_fields : list field) : result DataFrame :=
  results <- recipients_filter recipient_query df ;;
  content_filter content_query selected_fields results.

End Filtering.

(** Lines 34-35: the required columns the frame lacks. *)
Definition missing (df : DataFrame) : list string :=
  filter (fun c => negb (has_column df c)) required.

(** What [df[label].astype(str)] holds at a row. *)
Definition loc (df : DataFrame) (label : string) : nat :=
  match get_loc label (columns df) with
  | Some i => i
  | None => 0
  end.

Definition text_at (df : DataFrame) (label : string) (row : list cell)
  : string :=
  str_of_cell (at_pos (loc df label) row).

(** Reading the listed columns off one row. *)
Definition take (df : DataFrame) (labels : list string) (row : list cell)
  : list cell :=
  map (fun l => at_pos (loc df l) row) labels.

(** A row passes a filter when the filter is switched off or the row's
    text matches the compiled query. *)
Definition passes_recipient (re : string -> result (string -> bool))
  (df : DataFrame) (recipient_query : string) (row : list cell) : Prop :=
  Text.truthy (Text.strip recipient_query) = true ->
  exists m, re (Text.strip recipient_query) = Ok m
            /\ m (text_at df COL_RECIPIENTS row) = true.

Definition passes_content (re : string -> result (string -> bool))
  (df : DataFrame) (content_query : string) (selected_fields : list field)
  (row : list cell) : Prop :=
  Text.truthy (Text.strip content_query) = true ->
  selected_fields <> [] ->
  exists m, re content_query = Ok m
            /\ exists f, In f selected_fields
                         /\ m (text_at df (field_col f) row) = true.

(* ------------------------------------------------------------------ *)
(** ** The loader *)

(** What [pd.read_csv] raised, as the two [except] clauses of
    [load_data] tell failures apart: [FileNotFoundError], or any other
    [Exception] with the text [str(e)] gives for it.  (An interrupt of
    the process is no failure of the read and is not modelled.) *)
Inductive raised : Type :=
| FileNotFoundError
| Exception (message : string).

Inductive read : Type :=
| Parsed (df : DataFrame)
| Raised (e : raised).

(** What a run puts on the page. *)
Inductive element : Type :=
| st_error (body : string)
| st_title (body : string)
| st_caption (body : string)
| sidebar_header (body : string)
| sidebar_text_input (label placeholder : string)
| sidebar_multiselect (label : string) (options default : list field)
| st_metric (label value : string)
| st_subheader (body : string)
| st_dataframe (data : DataFrame)
| st_download_button (label : string) (data : list byte)
    (file_name mime : string)
| st_expander (label body : string).

(** Lines 15-24.  The loader returns its frame together with the
    messages it put on the page; [st.cache_data] replays both when the
    path was loaded before. *)
Definition load_data (read_csv : string -> read) (path : string)
  : DataFrame * list element :=
  match read_csv path with
  | Parsed df => (df, [])
  | Raised FileNotFoundError =>
      (empty_frame, [st_error ("File not found: " ++ path)])
  | Raised (Exception e) =>
      (empty_frame, [st_error ("Could not read CSV: " ++ e)])
  end.

(* ------------------------------------------------------------------ *)
(** ** Column order and export *)

Definition front_cols : list string :=
  [COL_RECIPIENTS; COL_SUPS; COL_PROPOSAL; COL_LAY].

(** [c not in front_cols] *)
Definition not_in (l : list string) (c : string) : bool :=
  negb (existsb (String.eqb c) l).

(** Line 101. *)
Definition other_cols (results : DataFrame) : list string :=
  filter (not_in front_cols) (columns results).

(** [df[labels]] for a list of labels. *)
Definition locate (cols : list string) (label : string) : result nat :=
  match get_loc label cols with
  | Some i => Ok i
  | None => Raise (KeyError label)
  end.

Definition getitems (df : DataFrame) (labels : list string)
  : result DataFrame :=
  idx <- mapM (locate (columns df)) labels ;;
  Ok (mkDF labels (map (fun row => map (fun i => at_pos i row) idx)
                       (rows df))).

(** Line 102. *)
Definition ordered (results : DataFrame) : result DataFrame :=
  if nonempty front_cols
  then getitems results (front_cols ++ other_cols results)%list
  else Ok results.

Module Csv.

Definition comma : ascii := ascii_of_nat 44.
Definition quote : ascii := ascii_of_nat 34.
Definition LF : ascii := ascii_of_nat 10.
Definition CR : ascii := ascii_of_nat 13.

Section Writer.

(** The csv module quotes a field that holds the delimiter, the quote
    character or a character of the line terminator, which is
    [os.linesep], taken here as the POSIX one; its later versions quote a
    field that holds a carriage return as well.  [quotes_cr] tells which
    version runs. *)
Variable quotes_cr : bool.

Definition lineterminator : list ascii := [LF].

Definition special (c : ascii) : bool :=
  Ascii.eqb c comma || Ascii.eqb c quote
  || existsb (Ascii.eqb c) lineterminator
  || (quotes_cr && Ascii.eqb c CR).

(** Every quote character of the field is doubled. *)
Fixpoint doublequote (f : list ascii) : list ascii :=
  match f with
  | [] => []
  | c :: f' =>
      if Ascii.eqb c quote then quote :: quote :: doublequote f'
      else c :: doublequote f'
  end.

(** One field under [QUOTE_MINIMAL]. *)
Definition write_field (f : list ascii) : list ascii :=
  if existsb special f then (quote :: doublequote f ++ [quote])%list
  else f.

Fixpoint join_fields (fs : list (list ascii)) : list ascii :=
  match fs with
  | [] => []
  | [f] => write_field f
  | f :: fs' => (write_field f ++ comma :: join_fields fs')%list
  end.

(** [writer.writerow]: a record whose only field is empty is written as
    a pair of quotes. *)
Definition writerow (fs : list (list ascii)) : list ascii :=
  match fs with
  | [[]] => (quote :: quote :: lineterminator)%list
  | _ => (join_fields fs ++ lineterminator)%list
  end.

(** A missing cell is written as [na_rep], the empty text. *)
Definition cell_text (c : cell) : list ascii :=
  match c with
  | NaN => []
  | Val t => list_ascii_of_string t
  end.

(** [df.to_csv(index=False)]: the header, then one record per row. *)
Definition to_csv (df : DataFrame) : list ascii :=
  (writerow (map list_ascii_of_string (columns df))
   ++ List.concat (map (fun row => writerow (map cell_text row)) (rows df)))%list.

End Writer.

(** [text.encode("utf-8-sig")] on code points below 256. *)
Definition BOM : list byte := [xef; xbb; xbf].

Definition utf8_char (c : ascii) : list byte :=
  match c with
  | Ascii b0 b1 b2 b3 b4 b5 b6 false => [byte_of_ascii c]
  | Ascii b0 b1 b2 b3 b4 b5 b6 true =>
      [byte_of_ascii (Ascii b6 true false false false false true true);
       byte_of_ascii (Ascii b0 b1 b2 b3 b4 b5 false true)]
  end.

Definition encode_utf8_sig (text : list ascii) : list byte :=
  (BOM ++ flat_map utf8_char text)%list.

(** *** Reading an export back

    The other half of the round trip the specification asks for: the
    bytes are decoded as UTF-8 with an optional byte-order mark, and the
    text is read as Python's [csv.reader] reads a text opened with
    [newline=''], in the dialect of the writer (comma, double quote with
    doubling, not strict).  The first record is the header; an empty
    field of a later record is a missing cell. *)

Fixpoint decode_utf8 (bs : list byte) : option (list ascii) :=
  match bs with
  | [] => Some []
  | b :: rest =>
      match ascii_of_byte b with
      | Ascii _ _ _ _ _ _ _ false =>
          option_map (cons (ascii_of_byte b)) (decode_utf8 rest)
      | Ascii b6 true false false false false true true =>
          match rest with
          | [] => None
          | b' :: rest' =>
              match ascii_of_byte b' with
              | Ascii c0 c1 c2 c3 c4 c5 false true =>
                  option_map (cons (Ascii c0 c1 c2 c3 c4 c5 b6 true))
                             (decode_utf8 rest')
              | _ => None
              end
          end
      | _ => None
      end
  end.

Definition decode_utf8_sig (bs : list byte) : option (list ascii) :=
  match bs with
  | xef :: xbb :: xbf :: rest => decode_utf8 rest
  | _ => decode_utf8 bs
  end.

(** The states of the reader, under the names the csv module gives
    them. *)
Inductive state : Type :=
| StartRecord
| StartField
| InField
| InQuotedField
| QuoteInQuotedField
| EatCRNL.

(** [read st f r rs input]: [f] is the field read so far, [r] the fields
    of the record before it, [rs] the records before that.  Outside
    quotes a carriage return ends the record as a line feed does, and a
    line feed right after it belongs to the same line end; an empty line
    is a record without fields; inside quotes every character but the
    quote is data; a quote inside a field that began without one is
    data; at the end of the text an open field is kept. *)
Fixpoint read (st : state) (f : list ascii) (r : list (list ascii))
  (rs : list (list (list ascii))) (input : list ascii)
  : list (list (list ascii)) :=
  match input with
  | [] =>
      match st with
      | StartRecord | EatCRNL => rs
      | StartField | InField | InQuotedField | QuoteInQuotedField =>
          (rs ++ [r ++ [f]])%list
      end
  | c :: rest =>
      let end_record (fields : list (list ascii)) :=
        if Ascii.eqb c LF
        then read StartRecord [] [] (rs ++ [fields])%list rest
        else read EatCRNL [] [] (rs ++ [fields])%list rest in
      let start_field (r : list (list ascii)) :=
        if Ascii.eqb c LF || Ascii.eqb c CR then end_record (r ++ [[]])%list
        else if Ascii.eqb c quote then read InQuotedField [] r rs rest
        else if Ascii.eqb c comma
        then read StartField [] (r ++ [[]])%list rs rest
        else read InField [c] r rs rest in
      let start_record :=
        if Ascii.eqb c LF || Ascii.eqb c CR then end_record []
        else start_field [] in
      match st with
      | StartRecord => start_record
      | EatCRNL =>
          if Ascii.eqb c LF then read StartRecord [] [] rs rest
          else start_record
      | StartField => start_field r
      | InField =>
          if Ascii.eqb c LF || Ascii.eqb c CR then end_record (r ++ [f])%list
          else if Ascii.eqb c comma
          then read StartField [] (r ++ [f])%list rs rest
          else read InField (f ++ [c])%list r rs rest
      | InQuotedField =>
          if Ascii.eqb c quote then read QuoteInQuotedField f r rs rest
          else read InQuotedField (f ++ [c])%list r rs rest
      | QuoteInQuotedField =>
          if Ascii.eqb c quote
          then read InQuotedField (f ++ [quote])%list r rs rest
          else if Ascii.eqb c comma
          then read StartField [] (r ++ [f])%list rs rest
          else if Ascii.eqb c LF || Ascii.eqb c CR
          then end_record (r ++ [f])%list
          else read InField (f ++ [c])%list r rs rest
      end
  end.


Definition cell_of_text (f : list ascii) : cell :=
  match f with
  | [] => NaN
  | _ :: _ => Val (string_of_list_ascii f)
  end.

Definition frame_of_records (records : list (list (list ascii)))
  : option DataFrame :=
  match records with
  | [] => None
  | header :: body =>
      Some (mkDF (map string_of_list_ascii header)
              (map (map cell_of_text) body))
  end.


(** A text that holds a carriage return is safe in an export when the
    writer quotes it. *)
Definition holds_cr (f : list ascii) : bool :=
  existsb (fun c => Ascii.eqb c CR) f.

Definition cr_quoted (quotes_cr : bool) (f : list ascii) : bool :=
  negb (holds_cr f) || existsb (special quotes_cr) f.

(** *** A left inverse of the writer

    Not the reader of any library: it ends a record at a line feed only
    and takes every other character outside quotes as data.  It serves
    to show that the writer sends different frames to different
    texts. *)

Inductive mode : Type :=
| FieldStart    (* nothing of the field read yet *)
| Unquoted      (* inside a field that began with a plain character *)
| Quoted        (* inside the quotes of a field *)
| QuoteSeen.    (* a quote met inside the quotes: doubled, or the end *)

Fixpoint unwrite (m : mode) (f : list ascii) (r : list (list ascii))
  (rs : list (list (list ascii))) (input : list ascii)
  : option (list (list (list ascii))) :=
  match input with
  | [] =>
      match m with
      | FieldStart =>
          match r with
          | [] => Some rs
          | _ :: _ => Some (rs ++ [r ++ [f]])%list
          end
      | Unquoted | QuoteSeen => Some (rs ++ [r ++ [f]])%list
      | Quoted => None
      end
  | c :: rest =>
      match m with
      | FieldStart =>
          if Ascii.eqb c quote then unwrite Quoted [] r rs rest
          else if Ascii.eqb c comma
          then unwrite FieldStart [] (r ++ [[]])%list rs rest
          else if Ascii.eqb c LF
          then unwrite FieldStart [] [] (rs ++ [r ++ [[]]])%list rest
          else unwrite Unquoted [c] r rs rest
      | Unquoted =>
          if Ascii.eqb c comma
          then unwrite FieldStart [] (r ++ [f])%list rs rest
          else if Ascii.eqb c LF
          then unwrite FieldStart [] [] (rs ++ [r ++ [f]])%list rest
          else if Ascii.eqb c quote then None
          else unwrite Unquoted (f ++ [c])%list r rs rest
      | Quoted =>
          if Ascii.eqb c quote then unwrite QuoteSeen f r rs rest
          else unwrite Quoted (f ++ [c])%list r rs rest
      | QuoteSeen =>
          if Ascii.eqb c quote
          then unwrite Quoted (f ++ [quote])%list r rs rest
          else if Ascii.eqb c comma
          then unwrite FieldStart [] (r ++ [f])%list rs rest
          else if Ascii.eqb c LF
          then unwrite FieldStart [] [] (rs ++ [r ++ [f]])%list rest
          else None
      end
  end.

Definition unwrite_export (bytes : list byte) : option DataFrame :=
  match decode_utf8_sig bytes with
  | None => None
  | Some text =>
      match unwrite FieldStart [] [] [] text with
      | None => None
      | Some records => frame_of_records records
      end
  end.

End Csv.

(** The frames the loader hands over: as many cells in a row as there
    are columns, and no cell that is the empty text ([read_csv] reads an
    empty field as a missing cell). *)
Definition rectangular (df : DataFrame) : Prop :=
  forall row, In row (rows df) -> List.length row = List.length (columns df).

Definition no_empty_text (df : DataFrame) : Prop :=
  forall row, In row (rows df) -> ~ In (Val "") row.

(** No label and no cell holds a carriage return that the writer would
    leave unquoted. *)
Definition cr_safe (quotes_cr : bool) (df : DataFrame) : Prop :=
  (forall c, In c (columns df) ->
     Csv.cr_quoted quotes_cr (list_ascii_of_string c) = true)
  /\ (forall row, In row (rows df) -> forall x, In x row ->
        Csv.cr_quoted quotes_cr (Csv.cell_text x) = true).


(** Lines 110-115. *)
Definition download_button (quotes_cr : bool) (ordered : DataFrame)
  : element :=
  st_download_button "Download results (CSV)"
    (Csv.encode_utf8_sig (Csv.to_csv quotes_cr ordered))
    "BONF_recipients_filtered_results.csv" "text/csv".

(* ------------------------------------------------------------------ *)
(** ** The script, top to bottom *)

(** [f"{n:,}"]: the decimal digits, a comma before every group of three
    from the right. *)
Fixpoint group_thousands (rev_digits : list ascii) : list ascii :=
  match rev_digits with
  | a :: b :: c :: ((_ :: _) as more) =>
      a :: b :: c :: Csv.comma :: group_thousands more
  | _ => rev_digits
  end.

Definition format_count (n : nat) : string :=
  string_of_list_ascii
    (rev (group_thousands
            (rev (list_ascii_of_string
                    (NilEmpty.string_of_uint (Nat.to_uint n)))))).

Definition notes : string :=
  "- **Recipients contains**: case-insensitive substring match on the *Recipients* column.
- **Content keyword**: case-insensitive substring match across the selected fields (OR logic).
- Default keyword search checks **Proposal** and **Lay_Summary**; you can add **Supervisors** as needed.".

(** How a run ends: at the last line, at [st.stop()], or at an exception
    nothing catches. *)
Inductive ending : Type :=
| Completed
| Stopped
| Uncaught (e : exn).

Record run : Type := mkRun {
  rendered : list element;
  ended : ending
}.

(** Lines 44-63. *)
Definition sidebar : list element :=
  [sidebar_header "Filters";
   sidebar_text_input "Recipients contains" "e.g., Wintink";
   sidebar_text_input "Content keyword" "e.g., neurofeedback";
   sidebar_multiselect "Search keyword in:" field_options default_fields].

(** Lines 93-95. *)
Definition kpis (df results : DataFrame) : list element :=
  [st_metric "Total rows" (format_count (List.length (rows df)));
   st_metric "Matches" (format_count (List.length (rows results)))].


Section Script.

Variable read_csv : string -> read.
Variable re_compile_ic : string -> result (string -> bool).
Variable quotes_cr : bool.

(** One run of the script, as the list of elements it renders and the
    way it ends; the three widgets of the sidebar hand back what the user
    has typed and selected.  The page configuration and the two-column
    layout of the counts are left out. *)
Definition script (recipient_query content_query : string)
  (selected_fields : list field) : run :=
  let (df, messages) := load_data read_csv CSV_PATH in
  let page := (messages ++ [st_title "Branch Out Science Search"])%list in
  if df_empty df then mkRun page Stopped
  else
    match missing df with
    | _ :: _ =>
        mkRun (page
               ++ [st_error ("Missing expected column(s): "
                             ++ Text.join ", " (missing df));
                   st_caption ("Available columns include: "
                               ++ Text.join ", " (firstn 20 (columns df))
                               ++ "...")])%list
              Stopped
    | [] =>
        let page := (page ++ sidebar)%list in
        match Filtered re_compile_ic df recipient_query content_query
                selected_fields with
        | Raise e => mkRun page (Uncaught e)
        | Ok results =>
            let page := (page ++ kpis df results)%list in
            match ordered results with
            | Raise e => mkRun page (Uncaught e)
            | Ok ordered =>
                mkRun (page
                       ++ [st_subheader "Results";
                           st_dataframe ordered;
                           download_button quotes_cr ordered;
                           st_expander "Notes" notes])%list
                      Completed
            end
        end
    end.

End Script.

(** A query in which every character stands for itself. *)
Definition plain (q : string) : bool :=
  forallb (fun c => negb (Re.special c)) (list_ascii_of_string q).

(* ------------------------------------------------------------------ *)
(** ** Reading a displayed count *)

Definition not_comma (c : ascii) : bool := negb (Ascii.eqb c Csv.comma).

(** [int(s.replace(",", ""))]: the number a count written with
    thousands separators stands for. *)
Definition parse_count (s : string) : option nat :=
  option_map Nat.of_uint
    (NilEmpty.uint_of_string
       (string_of_list_ascii
          (filter not_comma (list_ascii_of_string s)))).

(** The elements a run shows when it goes through: title, sidebar,
    counts, table, download, notes. *)
Definition full_page (quotes_cr : bool) (df results table : DataFrame)
  : list element :=
  ([st_title "Branch Out Science Search"] ++ sidebar ++ kpis df results
   ++ [st_subheader "Results"; st_dataframe table;
       download_button quotes_cr table; st_expander "Notes" notes])%list.

(** A stretch of text matches a parsed pattern when it has one character
    per atom and every character matches its atom. *)
Definition matches_atoms (r : list Re.atom) (mid : list ascii) : Prop :=
  Forall2 (fun a c => Re.atom_matches a c = true) r mid.
(* ------------------------------------------------------------------ *)
(** ** Frames used in the examples *)

(** A frame with the four required columns and one row whose recipient
    is missing. *)
Definition anonymous_row : list cell :=
  [NaN; Val "Dr Grey"; Val "sleep and memory"; Val "how sleep helps"].
Definition anonymous_frame : DataFrame := mkDF required [anonymous_row].

Definition lee_row : list cell :=
  [Val "Bob Lee"; Val "Dr Park"; Val "robotics"; Val "robots that help"].
Definition lee_frame : DataFrame := mkDF required [lee_row].

Definition wintink_row : list cell :=
  [Val "Alice Wintink"; Val "Dr Moss"; Val "neurofeedback study";
   Val "training the brain"].
Definition two_rows : DataFrame := mkDF required [wintink_row; lee_row].

Definition spaces (s : string) : bool :=
  forallb Text.isspace (list_ascii_of_string s).

(** A frame whose columns stand in another order, with two more. *)
Definition wide_row : list cell :=
  [Val "17"; Val "sleep and memory"; Val "Mia Chen"; NaN;
   Val "how sleep helps"; Val "Dr Grey, Dr Wu"].
Definition wide_frame : DataFrame :=
  mkDF ["Id"; "Proposal"; "Recipients"; "Year"; "Lay_Summary"; "Supervisors"]
       [wide_row].


(** File systems: one where the path does not resolve, one where the
    parser gives up, and ones that hold a frame. *)
Definition no_file (path : string) : read := Raised FileNotFoundError.
Definition bad_file (path : string) : read :=
  Raised (Exception "Error tokenizing data").
Definition file_of (df : DataFrame) (path : string) : read := Parsed df.


(* ------------------------------------------------------------------ *)
(** ** Lemmas on text *)

Lemma list_ascii_of_string_app (a b : string) :
  list_ascii_of_string (a ++ b)
  = (list_ascii_of_string a ++ list_ascii_of_string b)%list.
Proof.
  induction a as [|c a IH]; simpl; [reflexivity|].
  now rewrite IH.
Qed.

Lemma lstrip_app (q r : list ascii) :
  Text.lstrip (q ++ r)%list
  = if forallb Text.isspace q then Text.lstrip r
    else (Text.lstrip q ++ r)%list.
Proof.
  induction q as [|c q IH]; simpl; [reflexivity|].
  destruct (Text.isspace c); simpl; [exact IH|reflexivity].
Qed.

Lemma lstrip_spaces (l : list ascii) :
  forallb Text.isspace l = true -> Text.lstrip l = [].
Proof.
  induction l as [|c l IH]; simpl; [reflexivity|].
  destruct (Text.isspace c); simpl; [exact IH|discriminate].
Qed.

Lemma lstrip_not_spaces (l : list ascii) :
  forallb Text.isspace l = false -> Text.lstrip l <> [].
Proof.
  induction l as [|c l IH]; simpl; [discriminate|].
  destruct (Text.isspace c) eqn:E; simpl; [exact IH|discriminate].
Qed.

Lemma forallb_rev {A} (f : A -> bool) (l : list A) :
  forallb f (rev l) = forallb f l.
Proof.
  induction l as [|a l IH]; simpl; [reflexivity|].
  rewrite forallb_app, IH; simpl.
  now rewrite andb_true_r, andb_comm.
Qed.

Lemma strip_chars_pad (l q r : list ascii) :
  forallb Text.isspace l = true ->
  forallb Text.isspace r = true ->
  Text.strip_chars (l ++ q ++ r)%list = Text.strip_chars q.
Proof.
  intros Hl Hr. unfold Text.strip_chars.
  rewrite lstrip_app, Hl, lstrip_app.
  destruct (forallb Text.isspace q) eqn:Hq.
  - now rewrite (lstrip_spaces r Hr), (lstrip_spaces q Hq).
  - rewrite rev_app_distr, lstrip_app, forallb_rev, Hr. reflexivity.
Qed.

Lemma strip_pad (l q r : string) :
  forallb Text.isspace (list_ascii_of_string l) = true ->
  forallb Text.isspace (list_ascii_of_string r) = true ->
  Text.strip (l ++ q ++ r) = Text.strip q.
Proof.
  intros Hl Hr. unfold Text.strip.
  now rewrite !list_ascii_of_string_app, strip_chars_pad.
Qed.

(* ------------------------------------------------------------------ *)
(** ** Lemmas on masks and column lookup *)

Lemma boolean_index_map (p : list cell -> bool) (rs : list (list cell)) :
  boolean_index rs (map p rs) = filter p rs.
Proof.
  induction rs as [|r rs IH]; simpl; [reflexivity|].
  now rewrite IH.
Qed.

Lemma or_mask_map {A} (p q : A -> bool) (l : list A) :
  or_mask (map p l) (map q l) = map (fun x => p x || q x) l.
Proof.
  induction l as [|a l IH]; simpl; [reflexivity|].
  now rewrite IH.
Qed.

Lemma fold_or_mask {A F} (p : F -> A -> bool) (l : list A) (fs : list F) :
  forall q : A -> bool,
    fold_left or_mask (map (fun f => map (p f) l) fs) (map q l)
    = map (fun x => q x || existsb (fun f => p f x) fs) l.
Proof.
  induction fs as [|f fs IH]; intros q; simpl.
  - apply map_ext. intros x. now rewrite orb_false_r.
  - rewrite or_mask_map, IH. apply map_ext. intros x.
    now rewrite orb_assoc.
Qed.

Lemma has_column_get_loc (df : DataFrame) (label : string) :
  has_column df label = true ->
  get_loc label (columns df) = Some (loc df label).
Proof.
  unfold has_column, loc.
  induction (columns df) as [|c cols IH]; simpl; [discriminate|].
  rewrite (String.eqb_sym label c).
  destruct (String.eqb c label); simpl; [reflexivity|].
  intros H. specialize (IH H).
  destruct (get_loc label cols); [reflexivity|discriminate].
Qed.

Lemma missing_nil_has (df : DataFrame) (label : string) :
  missing df = [] -> In label required -> has_column df label = true.
Proof.
  unfold missing. intros Hm Hin.
  destruct (has_column df label) eqn:E; [reflexivity|].
  assert (In label (filter (fun c => negb (has_column df c)) required)) as H.
  { apply filter_In. split; [exact Hin|now rewrite E]. }
  rewrite Hm in H. destruct H.
Qed.

Lemma field_col_required (f : field) : In (field_col f) required.
Proof. destruct f; simpl; auto. Qed.

Lemma getitem_validated (df : DataFrame) (label : string) :
  missing df = [] -> In label required ->
  getitem df label = Ok (map (at_pos (loc df label)) (rows df)).
Proof.
  intros Hm Hin. unfold getitem.
  now rewrite (has_column_get_loc df label (missing_nil_has df label Hm Hin)).
Qed.

(* ------------------------------------------------------------------ *)
(** ** What the two filters compute on a validated frame *)

Section FilterFacts.

Variable re : string -> result (string -> bool).

Lemma str_contains_astype (s : Series) (pat : string) (na : bool)
  (m : string -> bool) :
  re pat = Ok m ->
  str_contains re (astype_str s) pat na
  = Ok (map (fun c => m (str_of_cell c)) s).
Proof.
  intros Hm. unfold str_contains, astype_str. rewrite Hm. simpl.
  now rewrite map_map.
Qed.

Lemma str_contains_raise (s : Series) (pat : string) (na : bool) (e : exn) :
  re pat = Raise e -> str_contains re s pat na = Raise e.
Proof. intros He. unfold str_contains. now rewrite He. Qed.

Lemma recipients_filter_off (rq : string) (df : DataFrame) :
  Text.truthy (Text.strip rq) = false ->
  recipients_filter re rq df = Ok df.
Proof. intros H. unfold recipients_filter. now rewrite H. Qed.

Lemma recipients_filter_on (rq : string) (df : DataFrame) :
  missing df = [] ->
  Text.truthy (Text.strip rq) = true ->
  recipients_filter re rq df
  = (m <- re (Text.strip rq) ;;
     Ok (mkDF (columns df)
           (filter (fun r => m (text_at df COL_RECIPIENTS r)) (rows df)))).
Proof.
  intros Hv Hq. unfold recipients_filter. rewrite Hq.
  rewrite (getitem_validated df COL_RECIPIENTS Hv) by (simpl; auto).
  simpl. destruct (re (Text.strip rq)) as [m|e] eqn:Hre.
  - rewrite (str_contains_astype _ _ _ m Hre). simpl.
    unfold select_rows. rewrite map_map.
    now rewrite (boolean_index_map
                   (fun r => m (str_of_cell (at_pos (loc df COL_RECIPIENTS) r)))).
  - now rewrite (str_contains_raise _ _ _ e Hre).
Qed.

Lemma content_filter_off (cq : string) (fields : list field)
  (df : DataFrame) :
  Text.truthy (Text.strip cq) && nonempty fields = false ->
  content_filter re cq fields df = Ok df.
Proof. intros H. unfold content_filter. now rewrite H. Qed.

Lemma field_mask_ok (cq : string) (df : DataFrame) (m : string -> bool)
  (f : field) :
  missing df = [] -> re cq = Ok m ->
  field_mask re cq df f
  = Ok (map (fun r => m (text_at df (field_col f) r)) (rows df)).
Proof.
  intros Hv Hm. unfold field_mask.
  rewrite (getitem_validated df _ Hv (field_col_required f)). simpl.
  rewrite (str_contains_astype _ _ _ m Hm). now rewrite map_map.
Qed.

Lemma mapM_field_mask_ok (cq : string) (df : DataFrame)
  (m : string -> bool) (fields : list field) :
  missing df = [] -> re cq = Ok m ->
  mapM (field_mask re cq df) fields
  = Ok (map (fun f => map (fun r => m (text_at df (field_col f) r))
                        (rows df)) fields).
Proof.
  intros Hv Hm. induction fields as [|f fs IH]; simpl; [reflexivity|].
  rewrite (field_mask_ok cq df m f Hv Hm). simpl. now rewrite IH.
Qed.

Lemma content_filter_on (cq : string) (fields : list field)
  (df : DataFrame) :
  missing df = [] ->
  Text.truthy (Text.strip cq) && nonempty fields = true ->
  content_filter re cq fields df
  = (m <- re cq ;;
     Ok (mkDF (columns df)
           (filter (fun r => existsb
                               (fun f => m (text_at df (field_col f) r))
                               fields)
                   (rows df)))).
Proof.
  intros Hv Hon. unfold content_filter. rewrite Hon.
  destruct fields as [|f fs].
  { now rewrite andb_false_r in Hon. }
  destruct (re cq) as [m|e] eqn:Hre.
  - rewrite (mapM_field_mask_ok cq df m (f :: fs) Hv Hre). simpl.
    unfold select_rows. f_equal. f_equal.
    rewrite (fold_or_mask
               (fun f r => m (text_at df (field_col f) r)) (rows df) fs
               (fun r => m (text_at df (field_col f) r))).
    now rewrite boolean_index_map.
  - simpl. unfold field_mask at 1.
    rewrite (getitem_validated df _ Hv (field_col_required f)). simpl.
    now rewrite (str_contains_raise _ _ _ e Hre).
Qed.

Lemma recipients_filter_columns (rq : string) (df out : DataFrame) :
  recipients_filter re rq df = Ok out -> columns out = columns df.
Proof.
  unfold recipients_filter.
  destruct (Text.truthy (Text.strip rq)); [|now intros [= <-]].
  destruct (getitem df COL_RECIPIENTS); simpl; [|discriminate].
  destruct (str_contains re _ _ _); simpl; [|discriminate].
  now intros [= <-].
Qed.

Lemma content_filter_columns (cq : string) (fields : list field)
  (df out : DataFrame) :
  content_filter re cq fields df = Ok out -> columns out = columns df.
Proof.
  unfold content_filter.
  destruct (Text.truthy (Text.strip cq) && nonempty fields);
    [|now intros [= <-]].
  destruct (mapM _ _) as [ms|]; simpl; [|discriminate].
  destruct (any_mask ms); now intros [= <-].
Qed.

Lemma Filtered_columns (df out : DataFrame) (rq cq : string)
  (fields : list field) :
  Filtered re df rq cq fields = Ok out -> columns out = columns df.
Proof.
  unfold Filtered.
  destruct (recipients_filter re rq df) as [mid|] eqn:Hr; simpl;
    [|discriminate].
  intros Hc. rewrite (content_filter_columns _ _ _ _ Hc).
  exact (recipients_filter_columns _ _ _ Hr).
Qed.

End FilterFacts.

Lemma text_at_columns (a b : DataFrame) (label : string) (row : list cell) :
  columns a = columns b -> text_at a label row = text_at b label row.
Proof. intros H. unfold text_at, loc. now rewrite H. Qed.

Lemma missing_columns (a b : DataFrame) :
  columns a = columns b -> missing a = missing b.
Proof. intros H. unfold missing, has_column. now rewrite H. Qed.

Lemma truthy_false (s : string) : Text.truthy s = false <-> s = "".
Proof. destruct s; simpl; split; congruence. Qed.

(* ------------------------------------------------------------------ *)
(** ** The recipients filter and missing cells *)

(** C1: on every validated frame the recipient query [nan] keeps each row
    whose Recipients cell is missing: [astype(str)] has turned the cell
    into the text [nan] before [na=False] could apply. *)
Theorem C1_missing_recipient_kept_by_nan (df : DataFrame) (row : list cell) :
  missing df = [] ->
  In row (rows df) ->
  at_pos (loc df COL_RECIPIENTS) row = NaN ->
  exists out,
    Filtered Re.compile_ic df "nan" "" default_fields = Ok out
    /\ In row (rows out).
Proof.
  intros Hv Hin Hnan. unfold Filtered.
  rewrite (recipients_filter_on Re.compile_ic "nan" df Hv eq_refl).
  change (Text.strip "nan") with "nan".
  change (Re.compile_ic "nan")
    with (Ok (fun s => Re.search [Re.Lit "n"; Re.Lit "a"; Re.Lit "n"]
                         (list_ascii_of_string s))).
  cbn [bind]. rewrite content_filter_off by reflexivity.
  eexists. split; [reflexivity|]. cbn [rows].
  apply filter_In. split; [exact Hin|].
  unfold text_at. rewrite Hnan. reflexivity.
Qed.

Lemma C1_missing_recipient_kept_by_nan_witness :
  exists out,
    Filtered Re.compile_ic anonymous_frame "nan" "" default_fields = Ok out
    /\ In anonymous_row (rows out).
Proof.
  apply (C1_missing_recipient_kept_by_nan anonymous_frame anonymous_row).
  - reflexivity.
  - simpl. auto.
  - reflexivity.
Defined.

(* ------------------------------------------------------------------ *)
(** ** The recipients filter runs its query as a regular expression *)

(** C2: the recipient query [.] keeps the row of Bob Lee although the text
    [Bob Lee] holds no full stop: the query is compiled as a pattern. *)
Theorem C2_dot_query_keeps_every_name :
  Filtered Re.compile_ic lee_frame "." "" default_fields = Ok lee_frame
  /\ Text.ci_contains "." "Bob Lee" = false.
Proof. split; reflexivity. Qed.

(* ------------------------------------------------------------------ *)
(** ** Trimming: the recipient query is trimmed, the content query is not *)

(** C3: white space around the recipient query never changes what the
    recipients filter returns, which matches with the trimmed query; the
    content filter, once switched on, matches every selected field with
    the query as typed, and for the query [ neuro] on the two-row frame
    that differs from matching with the trimmed query. *)
Theorem C3_trim_asymmetry (re : string -> result (string -> bool))
  (df : DataFrame) (rq cq l r : string) (fields : list field) :
  spaces l = true -> spaces r = true ->
  recipients_filter re (l ++ rq ++ r) df = recipients_filter re rq df
  /\ (missing df = [] -> Text.truthy (Text.strip rq) = true ->
      recipients_filter re rq df
      = (m <- re (Text.strip rq) ;;
         Ok (mkDF (columns df)
               (filter (fun row => m (text_at df COL_RECIPIENTS row))
                       (rows df)))))
  /\ (missing df = [] ->
      Text.truthy (Text.strip cq) && nonempty fields = true ->
      content_filter re cq fields df
      = (m <- re cq ;;
         Ok (mkDF (columns df)
               (filter (fun row =>
                          existsb (fun f => m (text_at df (field_col f) row))
                                  fields)
                       (rows df)))))
  /\ (Text.truthy (Text.strip " neuro") && nonempty [Proposal] = true
      /\ content_filter Re.compile_ic " neuro" [Proposal] two_rows
         = Ok (mkDF required [])
      /\ content_filter Re.compile_ic (Text.strip " neuro") [Proposal]
           two_rows
         = Ok (mkDF required [wintink_row])).
Proof.
  intros Hl Hr. split; [|split; [|split]].
  - unfold recipients_filter. now rewrite (strip_pad l rq r Hl Hr).
  - intros Hv Hq. now apply recipients_filter_on.
  - intros Hv Hon. now apply content_filter_on.
  - split; [reflexivity|]. split; reflexivity.
Qed.

Lemma C3_trim_asymmetry_witness :
  recipients_filter Re.compile_ic ("  " ++ "Wintink" ++ " ") two_rows
  = recipients_filter Re.compile_ic "Wintink" two_rows.
Proof.
  exact (proj1 (C3_trim_asymmetry Re.compile_ic two_rows "Wintink" " neuro"
                  "  " " " [Proposal] eq_refl eq_refl)).
Defined.

(* ------------------------------------------------------------------ *)
(** ** Blank queries filter nothing *)

(** C4: when both queries are empty once trimmed, the filtered view is
    the frame itself, rows and order untouched, whatever the selected
    fields. *)
Theorem C4_blank_queries_identity (re : string -> result (string -> bool))
  (df : DataFrame) (rq cq : string) (fields : list field) :
  Text.strip rq = "" -> Text.strip cq = "" ->
  Filtered re df rq cq fields = Ok df.
Proof.
  intros Hr Hc. unfold Filtered.
  rewrite recipients_filter_off by now apply truthy_false.
  cbn [bind]. apply content_filter_off.
  apply truthy_false in Hc. now rewrite Hc.
Qed.

Lemma C4_blank_queries_identity_witness :
  Filtered Re.compile_ic two_rows "  " "" default_fields = Ok two_rows.
Proof.
  apply (C4_blank_queries_identity Re.compile_ic two_rows "  " ""
           default_fields); reflexivity.
Defined.

(* ------------------------------------------------------------------ *)
(** ** Selecting more fields *)

(** C5, as stated, fails: with no field selected the content filter is
    switched off and every row stays, with [Proposal] selected the query
    [neuro] drops the row of Bob Lee. *)
Lemma C5_no_field_keeps_more_than_one_field :
  ~ (forall (df : DataFrame) (rq cq : string) (F1 F2 : list field)
            (out1 out2 : DataFrame) (row : list cell),
        incl F1 F2 ->
        Filtered Re.compile_ic df rq cq F1 = Ok out1 ->
        Filtered Re.compile_ic df rq cq F2 = Ok out2 ->
        In row (rows out1) -> In row (rows out2)).
Proof.
  intros H.
  assert (In lee_row (rows (mkDF required [wintink_row]))) as Hin.
  { apply (H two_rows "" "neuro" [] [Proposal] two_rows
             (mkDF required [wintink_row]) lee_row).
    - intros f [].
    - reflexivity.
    - reflexivity.
    - simpl. auto. }
  simpl in Hin. destruct Hin as [Heq|[]]. discriminate Heq.
Qed.

(** C5, amended: on a validated frame, when a field is selected in [F1]
    (or the content query is blank) and [F1] is a part of [F2], the view
    for [F2] exists whenever the view for [F1] does and holds every row
    of it; with no field selected the view is the one of the recipients
    filter alone. *)
Theorem C5_more_fields_more_rows (re : string -> result (string -> bool))
  (df : DataFrame) (rq cq : string) (F1 F2 : list field)
  (out1 : DataFrame) :
  missing df = [] ->
  incl F1 F2 ->
  F1 <> [] \/ Text.strip cq = "" ->
  Filtered re df rq cq F1 = Ok out1 ->
  (exists out2,
      Filtered re df rq cq F2 = Ok out2
      /\ forall row, In row (rows out1) -> In row (rows out2))
  /\ Filtered re df rq cq [] = recipients_filter re rq df.
Proof.
  intros Hv Hincl Hact H1. split.
  2:{ unfold Filtered. destruct (recipients_filter re rq df); simpl;
        [|reflexivity].
      apply content_filter_off. apply andb_false_r. }
  unfold Filtered in *.
  destruct (recipients_filter re rq df) as [mid|] eqn:Hmid;
    cbn [bind] in *; [|discriminate].
  assert (missing mid = []) as Hvm.
  { rewrite (missing_columns mid df); [exact Hv|].
    exact (recipients_filter_columns re rq df mid Hmid). }
  destruct (Text.truthy (Text.strip cq)) eqn:Hcq.
  - destruct Hact as [Hne|He];
      [|apply truthy_false in He; congruence].
    assert (nonempty F1 = true) as Hn1 by (destruct F1; [easy|reflexivity]).
    assert (nonempty F2 = true) as Hn2.
    { destruct F1 as [|f F1]; [easy|]. destruct F2; [|reflexivity].
      destruct (Hincl f (or_introl eq_refl)). }
    rewrite content_filter_on in H1 |- * by (try rewrite Hcq; assumption).
    destruct (re cq) as [m|]; cbn [bind] in *; [|discriminate].
    injection H1 as <-. eexists. split; [reflexivity|].
    cbn [rows]. intros row Hrow. apply filter_In in Hrow.
    destruct Hrow as [Hin Hex]. apply filter_In. split; [exact Hin|].
    apply existsb_exists in Hex. destruct Hex as [f [Hf Hm]].
    apply existsb_exists. exists f. split; [now apply Hincl|exact Hm].
  - rewrite content_filter_off in H1 |- * by now rewrite Hcq.
    exists out1. split; [exact H1|auto].
Qed.

Lemma C5_more_fields_more_rows_witness :
  (exists out2,
      Filtered Re.compile_ic two_rows "" "neuro" [Proposal; Supervisors]
      = Ok out2
      /\ forall row,
          In row (rows (mkDF required [wintink_row])) -> In row (rows out2))
  /\ Filtered Re.compile_ic two_rows "" "neuro" []
     = recipients_filter Re.compile_ic "" two_rows.
Proof.
  apply (C5_more_fields_more_rows Re.compile_ic two_rows "" "neuro"
           [Proposal] [Proposal; Supervisors] (mkDF required [wintink_row])).
  - reflexivity.
  - intros f [<-|[]]. simpl. auto.
  - left. discriminate.
  - reflexivity.
Defined.

(* ------------------------------------------------------------------ *)
(** ** The two filters compose *)

Lemma Filtered_recipient_only (re : string -> result (string -> bool))
  (df : DataFrame) (rq : string) :
  Filtered re df rq "" [] = recipients_filter re rq df.
Proof.
  unfold Filtered. destruct (recipients_filter re rq df); reflexivity.
Qed.

Lemma Filtered_content_only (re : string -> result (string -> bool))
  (df : DataFrame) (cq : string) (fields : list field) :
  Filtered re df "" cq fields = content_filter re cq fields df.
Proof. reflexivity. Qed.

Lemma Filtered_rows (re : string -> result (string -> bool))
  (df out : DataFrame) (rq cq : string) (fields : list field) :
  missing df = [] ->
  Filtered re df rq cq fields = Ok out ->
  forall row,
    In row (rows out)
    <-> In row (rows df)
        /\ passes_recipient re df rq row
        /\ passes_content re df cq fields row.
Proof.
  intros Hv H row. unfold Filtered in H.
  destruct (recipients_filter re rq df) as [mid|] eqn:Hmid;
    cbn [bind] in H; [|discriminate].
  pose proof (recipients_filter_columns re rq df mid Hmid) as Hcols.
  assert (missing mid = []) as Hvm
      by (now rewrite (missing_columns mid df)).
  assert (In row (rows mid)
          <-> In row (rows df) /\ passes_recipient re df rq row) as Hrec.
  { unfold passes_recipient.
    destruct (Text.truthy (Text.strip rq)) eqn:Hq.
    - rewrite recipients_filter_on in Hmid by assumption.
      destruct (re (Text.strip rq)) as [m|]; cbn [bind] in Hmid;
        [|discriminate].
      injection Hmid as <-. cbn [rows]. rewrite filter_In. split.
      + intros [Hin Hm]. split; [exact Hin|]. intros _. now exists m.
      + intros [Hin Hp]. split; [exact Hin|].
        destruct (Hp eq_refl) as [m' [[= <-] Hm']]. exact Hm'.
    - rewrite recipients_filter_off in Hmid by assumption.
      injection Hmid as <-. split; [intros Hin|intros [Hin _]; exact Hin].
      split; [exact Hin|discriminate]. }
  assert (In row (rows out)
          <-> In row (rows mid) /\ passes_content re df cq fields row)
    as Hcon.
  { unfold passes_content.
    destruct (Text.truthy (Text.strip cq) && nonempty fields) eqn:Hon.
    - rewrite content_filter_on in H by assumption.
      destruct (re cq) as [m|]; cbn [bind] in H; [|discriminate].
      injection H as <-. cbn [rows]. rewrite filter_In, existsb_exists.
      split.
      + intros [Hin [f [Hf Hm]]]. split; [exact Hin|]. intros _ _.
        exists m. split; [reflexivity|]. exists f. split; [exact Hf|].
        now rewrite <- (text_at_columns mid df).
      + intros [Hin Hp]. split; [exact Hin|].
        apply andb_true_iff in Hon. destruct Hon as [Hq Hne].
        destruct Hp as [m' [[= <-] [f [Hf Hm']]]];
          [exact Hq|now destruct fields|].
        exists f. split; [exact Hf|].
        now rewrite (text_at_columns mid df).
    - rewrite content_filter_off in H by assumption.
      injection H as <-. split; [intros Hin|intros [Hin _]; exact Hin].
      split; [exact Hin|]. intros Hq Hne. rewrite Hq in Hon.
      destruct fields; [now elim Hne|discriminate]. }
  rewrite Hcon, Hrec. tauto.
Qed.

(** C6: filtering with both queries is filtering by the recipient query
    alone and then filtering that view by the content query alone; and on
    a validated frame a row is in the view exactly when it is a row of the
    frame that passes both filters (each one when it is switched on). *)
Theorem C6_filters_compose (re : string -> result (string -> bool))
  (df : DataFrame) (q1 q2 : string) (fields : list field) :
  Filtered re df q1 q2 fields
  = (mid <- Filtered re df q1 "" [] ;; Filtered re mid "" q2 fields)
  /\ forall out,
      missing df = [] ->
      Filtered re df q1 q2 fields = Ok out ->
      forall row,
        In row (rows out)
        <-> In row (rows df)
            /\ passes_recipient re df q1 row
            /\ passes_content re df q2 fields row.
Proof.
  split.
  - rewrite Filtered_recipient_only. reflexivity.
  - intros out Hv H. now apply Filtered_rows.
Qed.

Lemma C6_filters_compose_witness :
  In wintink_row (rows (mkDF required [wintink_row]))
  <-> In wintink_row (rows two_rows)
      /\ passes_recipient Re.compile_ic two_rows "Wintink" wintink_row
      /\ passes_content Re.compile_ic two_rows "neuro" [Proposal]
           wintink_row.
Proof.
  exact (proj2 (C6_filters_compose Re.compile_ic two_rows "Wintink" "neuro"
                  [Proposal])
           (mkDF required [wintink_row]) eq_refl eq_refl wintink_row).
Defined.

(* ------------------------------------------------------------------ *)
(** ** The loader never raises *)

(** C9: whatever [read_csv] does at the path, [load_data] returns a frame
    and the messages it has shown: the parsed frame and no message, or the
    empty frame with "File not found" when the path does not resolve, or
    the empty frame with "Could not read CSV" and the underlying message
    for any other failure; after a failure the run shows that message and
    the title, and stops with no exception. *)
Theorem C9_load_data_never_raises (read_csv : string -> read)
  (path : string) :
  match read_csv path with
  | Parsed df => load_data read_csv path = (df, [])
  | Raised FileNotFoundError =>
      load_data read_csv path
      = (empty_frame, [st_error ("File not found: " ++ path)])
  | Raised (Exception e) =>
      load_data read_csv path
      = (empty_frame, [st_error ("Could not read CSV: " ++ e)])
  end
  /\ (forall e re quotes_cr rq cq fields,
         read_csv CSV_PATH = Raised e ->
         df_empty (fst (load_data read_csv CSV_PATH)) = true
         /\ script read_csv re quotes_cr rq cq fields
            = mkRun (snd (load_data read_csv CSV_PATH)
                     ++ [st_title "Branch Out Science Search"])%list
                    Stopped).
Proof.
  split.
  - unfold load_data. destruct (read_csv path) as [df|[|e]]; reflexivity.
  - intros e re quotes_cr rq cq fields He. unfold script, load_data.
    rewrite He. destruct e; split; reflexivity.
Qed.

Lemma C9_load_data_never_raises_witness :
  script no_file Re.compile_ic false "Wintink" "" default_fields
  = mkRun [st_error "File not found: BONF Research Table MASTER Recipients.csv";
           st_title "Branch Out Science Search"] Stopped.
Proof.
  exact (proj2 (proj2 (C9_load_data_never_raises no_file CSV_PATH)
                  FileNotFoundError Re.compile_ic false "Wintink" ""
                  default_fields eq_refl)).
Defined.

(* ------------------------------------------------------------------ *)
(** ** The schema check *)

Lemma has_column_In (df : DataFrame) (c : string) :
  has_column df c = true <-> In c (columns df).
Proof.
  unfold has_column. rewrite existsb_exists. split.
  - intros [x [Hin Heq]]. apply String.eqb_eq in Heq. now subst.
  - intros Hin. exists c. split; [exact Hin|apply String.eqb_refl].
Qed.

Lemma missing_spec (df : DataFrame) (c : string) :
  In c (missing df) <-> In c required /\ ~ In c (columns df).
Proof.
  unfold missing. rewrite filter_In, negb_true_iff.
  rewrite <- has_column_In. destruct (has_column df c); intuition congruence.
Qed.



(* ------------------------------------------------------------------ *)
(** ** Column order of the table *)

Lemma get_loc_nth_error (c : string) (cols : list string) :
  forall j, get_loc c cols = Some j -> nth_error cols j = Some c.
Proof.
  induction cols as [|x cols IH]; simpl; [discriminate|].
  destruct (String.eqb x c) eqn:E; intros j.
  - intros [= <-]. apply String.eqb_eq in E. now subst.
  - destruct (get_loc c cols) as [i|]; simpl; [|discriminate].
    intros [= <-]. simpl. now apply IH.
Qed.

Lemma In_get_loc (df : DataFrame) (c : string) :
  In c (columns df) -> get_loc c (columns df) = Some (loc df c).
Proof. intros H. apply has_column_get_loc. now apply has_column_In. Qed.

Lemma mapM_locate (df : DataFrame) (labels : list string) :
  (forall l, In l labels -> In l (columns df)) ->
  mapM (locate (columns df)) labels = Ok (map (loc df) labels).
Proof.
  induction labels as [|l labels IH]; intros H; simpl; [reflexivity|].
  unfold locate at 1. rewrite (In_get_loc df l) by (apply H; now left).
  simpl. rewrite IH by (intros x Hx; apply H; now right). reflexivity.
Qed.

Lemma getitems_ok (df : DataFrame) (labels : list string) :
  (forall l, In l labels -> In l (columns df)) ->
  getitems df labels = Ok (mkDF labels (map (take df labels) (rows df))).
Proof.
  intros H. unfold getitems. rewrite (mapM_locate df labels H). simpl.
  f_equal. f_equal. apply map_ext. intros row. unfold take.
  now rewrite map_map.
Qed.

Lemma take_at (df tbl : DataFrame) (labels : list string) (row : list cell)
  (c : string) :
  columns tbl = labels -> In c labels ->
  at_pos (loc tbl c) (take df labels row) = at_pos (loc df c) row.
Proof.
  intros Hcols Hin.
  assert (get_loc c (columns tbl) = Some (loc tbl c)) as Hloc
      by (apply In_get_loc; now rewrite Hcols).
  apply get_loc_nth_error in Hloc. rewrite Hcols in Hloc.
  unfold at_pos, take. apply nth_error_nth.
  now rewrite nth_error_map, Hloc.
Qed.

Lemma not_in_spec (l : list string) (c : string) :
  not_in l c = true <-> ~ In c l.
Proof.
  unfold not_in. rewrite negb_true_iff.
  destruct (existsb (String.eqb c) l) eqn:E.
  - apply existsb_exists in E. destruct E as [x [Hin Heq]].
    apply String.eqb_eq in Heq. subst. split; [discriminate|tauto].
  - split; [|reflexivity]. intros _ Hin.
    assert (existsb (String.eqb c) l = true) as E'.
    { apply existsb_exists. exists c. split; [exact Hin|apply String.eqb_refl]. }
    congruence.
Qed.

Lemma front_other_In (df : DataFrame) (c : string) :
  missing df = [] ->
  In c (columns df) <-> In c (front_cols ++ other_cols df)%list.
Proof.
  intros Hv. rewrite in_app_iff. unfold other_cols.
  rewrite filter_In, not_in_spec. split.
  - intros Hin.
    destruct (in_dec string_dec c front_cols) as [Hf|Hf]; [now left|right].
    now split.
  - intros [Hf|[Hin _]]; [|exact Hin].
    apply has_column_In. now apply missing_nil_has.
Qed.


Lemma ordered_ok (results : DataFrame) :
  missing results = [] ->
  ordered results
  = Ok (mkDF (front_cols ++ other_cols results)%list
           (map (take results (front_cols ++ other_cols results)%list)
                (rows results))).
Proof.
  intros Hv. unfold ordered. cbn [nonempty front_cols].
  apply getitems_ok. intros l Hl. now apply front_other_In.
Qed.



(* ------------------------------------------------------------------ *)
(** ** The writer loses nothing: its left inverse *)

Section Unwrite.

Variable quotes_cr : bool.

Lemma special_false (c : ascii) :
  Csv.special quotes_cr c = false ->
  Ascii.eqb c Csv.comma = false /\ Ascii.eqb c Csv.quote = false
  /\ Ascii.eqb c Csv.LF = false.
Proof.
  unfold Csv.special, Csv.lineterminator. simpl.
  destruct (Ascii.eqb c Csv.comma), (Ascii.eqb c Csv.quote),
    (Ascii.eqb c Csv.LF); simpl; intros H; try discriminate; auto.
Qed.

Lemma unwrite_unquoted (f : list ascii) :
  existsb (Csv.special quotes_cr) f = false ->
  forall g r rs rest,
    Csv.unwrite Csv.Unquoted g r rs (f ++ rest)%list
    = Csv.unwrite Csv.Unquoted (g ++ f)%list r rs rest.
Proof.
  induction f as [|c f IH]; intros Hf g r rs rest; simpl.
  - now rewrite app_nil_r.
  - simpl in Hf. apply orb_false_iff in Hf. destruct Hf as [Hc Hf].
    destruct (special_false c Hc) as [H1 [H2 H3]].
    rewrite H1, H2, H3, (IH Hf), <- app_assoc. reflexivity.
Qed.

Lemma unwrite_quoted (f : list ascii) :
  forall g r rs rest,
    Csv.unwrite Csv.Quoted g r rs (Csv.doublequote f ++ rest)%list
    = Csv.unwrite Csv.Quoted (g ++ f)%list r rs rest.
Proof.
  induction f as [|c f IH]; intros g r rs rest.
  - simpl. now rewrite app_nil_r.
  - cbn [Csv.doublequote]. destruct (Ascii.eqb c Csv.quote) eqn:E.
    + apply Ascii.eqb_eq in E. subst c. cbn [app Csv.unwrite].
      rewrite !Ascii.eqb_refl, IH, <- app_assoc. reflexivity.
    + cbn [app Csv.unwrite]. rewrite E, IH, <- app_assoc. reflexivity.
Qed.

(** A written field followed by a comma is read as that field. *)
Lemma unwrite_field_comma (f : list ascii) (r : list (list ascii))
  (rs : list (list (list ascii))) (rest : list ascii) :
  Csv.unwrite Csv.FieldStart [] r rs
    (Csv.write_field quotes_cr f ++ Csv.comma :: rest)%list
  = Csv.unwrite Csv.FieldStart [] (r ++ [f])%list rs rest.
Proof.
  unfold Csv.write_field.
  destruct (existsb (Csv.special quotes_cr) f) eqn:Hf.
  - cbn [app Csv.unwrite]. rewrite Ascii.eqb_refl.
    rewrite <- app_assoc, unwrite_quoted. reflexivity.
  - destruct f as [|c f]; [reflexivity|].
    simpl in Hf. apply orb_false_iff in Hf. destruct Hf as [Hc Hf].
    destruct (special_false c Hc) as [H1 [H2 H3]].
    cbn [app Csv.unwrite]. rewrite H1, H2, H3.
    rewrite (unwrite_unquoted f Hf). reflexivity.
Qed.

(** A written field followed by the line terminator ends the record. *)
Lemma unwrite_field_LF (f : list ascii) (r : list (list ascii))
  (rs : list (list (list ascii))) (rest : list ascii) :
  Csv.unwrite Csv.FieldStart [] r rs
    (Csv.write_field quotes_cr f ++ Csv.LF :: rest)%list
  = Csv.unwrite Csv.FieldStart [] [] (rs ++ [r ++ [f]])%list rest.
Proof.
  unfold Csv.write_field.
  destruct (existsb (Csv.special quotes_cr) f) eqn:Hf.
  - cbn [app Csv.unwrite]. rewrite Ascii.eqb_refl.
    rewrite <- app_assoc, unwrite_quoted. reflexivity.
  - destruct f as [|c f]; [reflexivity|].
    simpl in Hf. apply orb_false_iff in Hf. destruct Hf as [Hc Hf].
    destruct (special_false c Hc) as [H1 [H2 H3]].
    cbn [app Csv.unwrite]. rewrite H1, H2, H3.
    rewrite (unwrite_unquoted f Hf). reflexivity.
Qed.

Lemma unwrite_join_fields (fs : list (list ascii)) :
  fs <> [] ->
  forall r rs rest,
    Csv.unwrite Csv.FieldStart [] r rs
      (Csv.join_fields quotes_cr fs ++ Csv.LF :: rest)%list
    = Csv.unwrite Csv.FieldStart [] [] (rs ++ [r ++ fs])%list rest.
Proof.
  induction fs as [|f fs IH]; intros Hne r rs rest; [now elim Hne|].
  destruct fs as [|f' fs].
  - cbn [Csv.join_fields]. apply unwrite_field_LF.
  - change (Csv.join_fields quotes_cr (f :: f' :: fs))
      with (Csv.write_field quotes_cr f
            ++ Csv.comma :: Csv.join_fields quotes_cr (f' :: fs))%list.
    rewrite <- app_assoc. cbn [app].
    rewrite unwrite_field_comma, IH by discriminate.
    now rewrite <- app_assoc.
Qed.

Lemma unwrite_writerow (fs : list (list ascii)) :
  fs <> [] ->
  forall rs rest,
    Csv.unwrite Csv.FieldStart [] [] rs (Csv.writerow quotes_cr fs ++ rest)%list
    = Csv.unwrite Csv.FieldStart [] [] (rs ++ [fs])%list rest.
Proof.
  intros Hne rs rest.
  assert (Csv.unwrite Csv.FieldStart [] [] rs
            ((Csv.join_fields quotes_cr fs ++ Csv.lineterminator) ++ rest)
          = Csv.unwrite Csv.FieldStart [] [] (rs ++ [fs])%list rest) as Hgen.
  { rewrite <- app_assoc. unfold Csv.lineterminator. cbn [app].
    now rewrite unwrite_join_fields. }
  unfold Csv.writerow.
  destruct fs as [|[|c f] [|f' fs]]; exact Hgen.
Qed.

Lemma unwrite_records (recs : list (list (list ascii))) :
  Forall (fun fs => fs <> []) recs ->
  forall rs,
    Csv.unwrite Csv.FieldStart [] [] rs
      (List.concat (map (Csv.writerow quotes_cr) recs))
    = Some (rs ++ recs)%list.
Proof.
  induction 1 as [|fs recs Hfs _ IH]; intros rs; simpl.
  - now rewrite app_nil_r.
  - rewrite unwrite_writerow by exact Hfs. rewrite IH, <- app_assoc.
    reflexivity.
Qed.

End Unwrite.

Lemma decode_utf8_char (c : ascii) (rest : list byte) :
  Csv.decode_utf8 (Csv.utf8_char c ++ rest)%list
  = option_map (cons c) (Csv.decode_utf8 rest).
Proof.
  destruct c as [b0 b1 b2 b3 b4 b5 b6 b7].
  destruct b7, b6, b5, b4, b3, b2, b1, b0; reflexivity.
Qed.

Lemma decode_utf8_encode (text : list ascii) :
  Csv.decode_utf8 (flat_map Csv.utf8_char text) = Some text.
Proof.
  induction text as [|c text IH]; [reflexivity|].
  cbn [flat_map]. now rewrite decode_utf8_char, IH.
Qed.

Lemma decode_utf8_sig_encode (text : list ascii) :
  Csv.decode_utf8_sig (Csv.encode_utf8_sig text) = Some text.
Proof.
  unfold Csv.encode_utf8_sig, Csv.BOM. cbn [app Csv.decode_utf8_sig].
  apply decode_utf8_encode.
Qed.

Lemma cell_of_text_cell_text (c : cell) :
  c <> Val "" -> Csv.cell_of_text (Csv.cell_text c) = c.
Proof.
  destruct c as [|t]; [reflexivity|]. intros Hne.
  destruct t as [|a t]; [now elim Hne|].
  unfold Csv.cell_text. cbn [list_ascii_of_string Csv.cell_of_text].
  f_equal. exact (string_of_list_ascii_of_string (String a t)).
Qed.

Lemma to_csv_records (quotes_cr : bool) (t : DataFrame) :
  Csv.to_csv quotes_cr t
  = List.concat
      (map (Csv.writerow quotes_cr)
           (map list_ascii_of_string (columns t)
            :: map (map Csv.cell_text) (rows t))).
Proof. unfold Csv.to_csv. cbn [map List.concat]. now rewrite map_map. Qed.

(** Undoing what was written gives the frame that was written. *)
Lemma unwrite_export_to_csv (quotes_cr : bool) (t : DataFrame) :
  columns t <> [] ->
  (forall row, In row (rows t) -> row <> []) ->
  no_empty_text t ->
  Csv.unwrite_export (Csv.encode_utf8_sig (Csv.to_csv quotes_cr t)) = Some t.
Proof.
  intros Hcols Hrows Hcells. unfold Csv.unwrite_export.
  rewrite decode_utf8_sig_encode, to_csv_records. 
  rewrite unwrite_records.
  - cbn [app Csv.frame_of_records]. destruct t as [cols rws]. cbn in *.
    f_equal. f_equal.
    + rewrite map_map. rewrite <- (map_id cols) at 2. apply map_ext.
      exact string_of_list_ascii_of_string.
    + rewrite map_map. rewrite <- (map_id rws) at 2. apply map_ext_in.
      intros row Hrow. rewrite map_map.
      rewrite <- (map_id row) at 2. apply map_ext_in. intros c Hc.
      apply cell_of_text_cell_text. intros ->.
      exact (Hcells row Hrow Hc).
  - constructor.
    + destruct (columns t); [now elim Hcols|discriminate].
    + apply Forall_forall. intros fs Hfs. apply in_map_iff in Hfs.
      destruct Hfs as [row [<- Hrow]].
      specialize (Hrows row Hrow). destruct row; [now elim Hrows|discriminate].
Qed.

Lemma take_In (df : DataFrame) (labels : list string) (row : list cell)
  (c : cell) :
  In c (take df labels row) -> c = NaN \/ In c row.
Proof.
  unfold take, at_pos. intros H. apply in_map_iff in H.
  destruct H as [l [<- _]].
  destruct (nth_in_or_default (loc df l) row NaN); auto.
Qed.

Lemma take_all (cols : list string) :
  NoDup cols ->
  forall row,
    List.length row = List.length cols ->
    map (fun c => at_pos (match get_loc c cols with
                          | Some i => i
                          | None => 0
                          end) row) cols = row.
Proof.
  induction 1 as [|x cs Hx Hnd IH]; intros row Hlen.
  - destruct row; [reflexivity|discriminate].
  - destruct row as [|r rs]; [discriminate|]. cbn [map get_loc].
    rewrite String.eqb_refl. f_equal.
    etransitivity; [|apply (IH rs); simpl in Hlen; lia].
    apply map_ext_in. intros c Hc.
    destruct (String.eqb x c) eqn:E.
    { apply String.eqb_eq in E. subst. contradiction. }
    destruct (get_loc c cs) as [i|] eqn:Hi; [reflexivity|].
    exfalso. clear - Hc Hi. induction cs as [|y cs IHc]; [easy|].
    simpl in Hi. destruct (String.eqb y c) eqn:E; [discriminate|].
    destruct Hc as [->|Hc]; [now rewrite String.eqb_refl in E|].
    destruct (get_loc c cs); [discriminate|]. now apply IHc.
Qed.

Lemma Filtered_incl (re : string -> result (string -> bool))
  (df out : DataFrame) (rq cq : string) (fields : list field) :
  missing df = [] ->
  Filtered re df rq cq fields = Ok out ->
  forall row, In row (rows out) -> In row (rows df).
Proof.
  intros Hv H row Hin. now apply (Filtered_rows re df out rq cq fields Hv H).
Qed.

(** The original column order is got back by asking the decoded table
    for the columns of the frame. *)
Lemma restore_columns (results : DataFrame) :
  missing results = [] ->
  NoDup (columns results) ->
  rectangular results ->
  getitems
    (mkDF (front_cols ++ other_cols results)%list
       (map (take results (front_cols ++ other_cols results)%list)
            (rows results)))
    (columns results)
  = Ok results.
Proof.
  intros Hv Hnd Hrect.
  set (L := (front_cols ++ other_cols results)%list).
  set (table := mkDF L (map (take results L) (rows results))).
  rewrite (getitems_ok table (columns results))
    by (intros l Hl; exact (proj1 (front_other_In results l Hv) Hl)).
  destruct results as [cols rws]. cbn [columns rows] in *.
  f_equal. f_equal. subst table. cbn [rows]. rewrite map_map.
  rewrite <- (map_id rws) at 2. apply map_ext_in. intros row Hrow.
  unfold take at 1.
  etransitivity; [|exact (take_all cols Hnd row (Hrect row Hrow))].
  apply map_ext_in. intros c Hc.
  rewrite (take_at (mkDF cols rws) (mkDF L (map (take (mkDF cols rws) L) rws))
             L row c eq_refl).
  - reflexivity.
  - exact (proj1 (front_other_In (mkDF cols rws) c Hv) Hc).
Qed.

(* ------------------------------------------------------------------ *)
(** ** Reading an export back with the csv reader *)

Section ReadBack.

Variable quotes_cr : bool.










End ReadBack.

Lemma cr_safe_when_quoted (df : DataFrame) : cr_safe true df.
Proof.
  assert (forall f, Csv.cr_quoted true f = true) as H.
  { intros f. unfold Csv.cr_quoted, Csv.holds_cr.
    induction f as [|c f IH]; [reflexivity|]. cbn [existsb].
    unfold Csv.special at 1. cbn [andb].
    destruct (Ascii.eqb c Csv.CR); [now rewrite !orb_true_r|].
    rewrite orb_false_l, orb_false_r.
    destruct (existsb (Csv.special true) f);
      [now rewrite !orb_true_r|].
    rewrite orb_false_r in IH |- *. now rewrite IH. }
  split; intros; apply H.
Qed.





(* ------------------------------------------------------------------ *)
(** ** Plain queries, and the scenario of the specification *)

Lemma special_false_not_meta (c : ascii) :
  Re.special c = false ->
  Ascii.eqb c Re.backslash = false /\ Ascii.eqb c Re.dot = false.
Proof.
  unfold Re.special. cbn [list_ascii_of_string existsb].
  change "\"%char with Re.backslash. change "."%char with Re.dot.
  destruct (Ascii.eqb c Re.backslash), (Ascii.eqb c Re.dot); simpl;
    intros H; try discriminate; auto.
Qed.

Lemma parse_plain (whole : string) (p : list ascii) :
  forallb (fun c => negb (Re.special c)) p = true ->
  Re.parse whole p = Ok (map Re.Lit p).
Proof.
  induction p as [|c p IH]; intros H; [reflexivity|].
  cbn [forallb] in H. apply andb_true_iff in H. destruct H as [Hc Hp].
  apply negb_true_iff in Hc.
  destruct (special_false_not_meta c Hc) as [H1 H2].
  cbn [Re.parse]. rewrite H1, H2, Hc, (IH Hp). reflexivity.
Qed.

Lemma match_here_plain (q s : list ascii) :
  Re.match_here (map Re.Lit q) s = Text.ci_prefix q s.
Proof.
  revert s. induction q as [|a q IH]; intros s; [reflexivity|].
  destruct s as [|b s]; [reflexivity|].
  cbn [map Re.match_here Text.ci_prefix Re.atom_matches].
  now rewrite IH, Ascii.eqb_sym.
Qed.

Lemma search_plain (q s : list ascii) :
  Re.search (map Re.Lit q) s = Text.ci_find q s.
Proof.
  induction s as [|b s IH]; cbn [Re.search Text.ci_find];
    rewrite match_here_plain; [reflexivity|now rewrite IH].
Qed.

(** X1: a recipient query in which no character is special to [re] keeps
    exactly the rows whose Recipients text holds the trimmed query,
    whatever the case of the letters; the text of a missing cell is
    [nan]. *)
Theorem X1_plain_query_is_substring (df : DataFrame) (rq : string) :
  missing df = [] ->
  Text.truthy (Text.strip rq) = true ->
  plain (Text.strip rq) = true ->
  Filtered Re.compile_ic df rq "" default_fields
  = Ok (mkDF (columns df)
          (filter (fun row => Text.ci_contains (Text.strip rq)
                                (text_at df COL_RECIPIENTS row))
                  (rows df))).
Proof.
  intros Hv Hq Hplain. unfold Filtered.
  rewrite (recipients_filter_on Re.compile_ic rq df Hv Hq).
  unfold Re.compile_ic at 1. rewrite (parse_plain _ _ Hplain).
  cbn [bind]. rewrite content_filter_off by reflexivity.
  f_equal. f_equal. apply filter_ext. intros row.
  apply search_plain.
Qed.

Lemma X1_plain_query_is_substring_witness :
  Filtered Re.compile_ic two_rows " wINTink " "" default_fields
  = Ok (mkDF (columns two_rows)
          (filter (fun row => Text.ci_contains (Text.strip " wINTink ")
                                (text_at two_rows COL_RECIPIENTS row))
                  (rows two_rows))).
Proof.
  apply (X1_plain_query_is_substring two_rows " wINTink "); reflexivity.
Defined.

(** The scenario of the specification on the two rows of Alice Wintink
    and Bob Lee: each query alone keeps the first row, both together keep
    it, and [Lee] with [neuro] keeps nothing. *)
Example scenario_of_the_specification :
  Filtered Re.compile_ic two_rows "Wintink" "" default_fields
  = Ok (mkDF required [wintink_row])
  /\ Filtered Re.compile_ic two_rows "" "neuro" [Proposal]
     = Ok (mkDF required [wintink_row])
  /\ Filtered Re.compile_ic two_rows "Wintink" "neuro" [Proposal]
     = Ok (mkDF required [wintink_row])
  /\ Filtered Re.compile_ic two_rows "Lee" "neuro" [Proposal]
     = Ok (mkDF required []).
Proof.
  split; [reflexivity|]. split; [reflexivity|]. split; reflexivity.
Qed.

(** X3: a recipient query that is no valid pattern ends the run with the
    exception [re.error] that nothing catches, after the sidebar and
    before any count or table. *)
Theorem X3_bad_pattern_ends_run (read_csv : string -> read)
  (quotes_cr : bool) (df : DataFrame) (cq : string) (fields : list field) :
  read_csv CSV_PATH = Parsed df ->
  df_empty df = false ->
  missing df = [] ->
  script read_csv Re.compile_ic quotes_cr "\" cq fields
  = mkRun (st_title "Branch Out Science Search" :: sidebar)
          (Uncaught (re_error "\")).
Proof.
  intros Hread Hne Hv. unfold script, load_data, Filtered.
  rewrite Hread, Hne, Hv.
  rewrite (recipients_filter_on Re.compile_ic "\" df Hv eq_refl).
  reflexivity.
Qed.

Lemma X3_bad_pattern_ends_run_witness :
  script (file_of two_rows) Re.compile_ic false "\" "neuro" default_fields
  = mkRun (st_title "Branch Out Science Search" :: sidebar)
          (Uncaught (re_error "\")).
Proof.
  apply (X3_bad_pattern_ends_run (file_of two_rows) false two_rows "neuro"
           default_fields); reflexivity.
Defined.

(* ------------------------------------------------------------------ *)
(** ** The view as a selection of rows *)

Lemma frame_eta (d : DataFrame) : mkDF (columns d) (rows d) = d.
Proof. now destruct d. Qed.

Lemma filter_and {A} (f g : A -> bool) (l : list A) :
  filter f (filter g l) = filter (fun x => g x && f x) l.
Proof.
  induction l as [|a l IH]; simpl; [reflexivity|].
  destruct (g a); simpl; [destruct (f a)|]; now rewrite IH.
Qed.

Lemma filter_idem {A} (f : A -> bool) (l : list A) :
  filter f (filter f l) = filter f l.
Proof. apply forallb_filter_id, forallb_filter. Qed.

Lemma existsb_pointwise {A} (f g : A -> bool) (l : list A) :
  (forall x, f x = g x) -> existsb f l = existsb g l.
Proof.
  intros H. induction l as [|a l IH]; simpl; [reflexivity|].
  now rewrite H, IH.
Qed.

Section Selection.

Variable re : string -> result (string -> bool).

Lemma recipients_filter_selects (rq : string) (df out : DataFrame) :
  missing df = [] ->
  recipients_filter re rq df = Ok out ->
  exists pr,
    forall d, columns d = columns df ->
      recipients_filter re rq d
      = Ok (mkDF (columns d) (filter pr (rows d))).
Proof.
  intros Hv H. destruct (Text.truthy (Text.strip rq)) eqn:Hq.
  - rewrite recipients_filter_on in H by assumption.
    destruct (re (Text.strip rq)) as [m|] eqn:Hm; [|discriminate].
    exists (fun r => m (text_at df COL_RECIPIENTS r)). intros d Hd.
    rewrite recipients_filter_on, Hm;
      [|now rewrite (missing_columns d df)|assumption].
    cbn [bind]. f_equal. f_equal. apply filter_ext. intros r.
    now rewrite (text_at_columns d df).
  - exists (fun _ => true). intros d _.
    rewrite recipients_filter_off, filter_true, frame_eta by assumption.
    reflexivity.
Qed.

Lemma content_filter_selects (cq : string) (fields : list field)
  (df out : DataFrame) :
  missing df = [] ->
  content_filter re cq fields df = Ok out ->
  exists pc,
    forall d, columns d = columns df ->
      content_filter re cq fields d
      = Ok (mkDF (columns d) (filter pc (rows d))).
Proof.
  intros Hv H.
  destruct (Text.truthy (Text.strip cq) && nonempty fields) eqn:Hon.
  - rewrite content_filter_on in H by assumption.
    destruct (re cq) as [m|] eqn:Hm; [|discriminate].
    exists (fun r => existsb (fun f => m (text_at df (field_col f) r)) fields).
    intros d Hd.
    rewrite content_filter_on, Hm;
      [|now rewrite (missing_columns d df)|assumption].
    cbn [bind]. f_equal. f_equal. apply filter_ext. intros r.
    apply existsb_pointwise. intros f.
    now rewrite (text_at_columns d df).
  - exists (fun _ => true). intros d _.
    rewrite content_filter_off, filter_true, frame_eta by assumption.
    reflexivity.
Qed.

End Selection.

Lemma Filtered_selects (re : string -> result (string -> bool))
  (df out : DataFrame) (rq cq : string) (fields : list field) :
  missing df = [] ->
  Filtered re df rq cq fields = Ok out ->
  exists keep,
    forall d, columns d = columns df ->
      Filtered re d rq cq fields
      = Ok (mkDF (columns d) (filter keep (rows d))).
Proof.
  intros Hv H. unfold Filtered in H.
  destruct (recipients_filter re rq df) as [mid|] eqn:Hmid;
    cbn [bind] in H; [|discriminate].
  pose proof (recipients_filter_columns re rq df mid Hmid) as Hcm.
  destruct (recipients_filter_selects re rq df mid Hv Hmid) as [pr Hpr].
  assert (missing mid = []) as Hvm by (now rewrite (missing_columns mid df)).
  destruct (content_filter_selects re cq fields mid out Hvm H) as [pc Hpc].
  exists (fun r => pr r && pc r). intros d Hd. unfold Filtered.
  rewrite (Hpr d Hd). cbn [bind].
  rewrite Hpc by (cbn [columns]; congruence).
  cbn [columns rows]. now rewrite filter_and.
Qed.

Lemma Filtered_length (re : string -> result (string -> bool))
  (df out : DataFrame) (rq cq : string) (fields : list field) :
  missing df = [] ->
  Filtered re df rq cq fields = Ok out ->
  List.length (rows out) <= List.length (rows df).
Proof.
  intros Hv H.
  destruct (Filtered_selects re df out rq cq fields Hv H) as [keep Hk].
  rewrite (Hk df eq_refl) in H. injection H as <-.
  apply filter_length_le.
Qed.

(** X4: on a validated frame the view has the columns of the frame and
    its rows are the rows of the frame that one test keeps, in the order
    of the frame; so the number of matches never exceeds the total. *)
Theorem X4_view_is_ordered_selection
  (re : string -> result (string -> bool))
  (df out : DataFrame) (rq cq : string) (fields : list field) :
  missing df = [] ->
  Filtered re df rq cq fields = Ok out ->
  columns out = columns df
  /\ (exists keep, rows out = filter keep (rows df))
  /\ List.length (rows out) <= List.length (rows df).
Proof.
  intros Hv H.
  destruct (Filtered_selects re df out rq cq fields Hv H) as [keep Hk].
  rewrite (Hk df eq_refl) in H. injection H as <-. cbn [columns rows].
  split; [reflexivity|]. split; [now exists keep|].
  apply filter_length_le.
Qed.

Lemma X4_view_is_ordered_selection_witness :
  columns (mkDF required [wintink_row]) = columns two_rows
  /\ (exists keep, rows (mkDF required [wintink_row])
                   = filter keep (rows two_rows))
  /\ List.length (rows (mkDF required [wintink_row]))
     <= List.length (rows two_rows).
Proof.
  apply (X4_view_is_ordered_selection Re.compile_ic two_rows
           (mkDF required [wintink_row]) "wintink" "neuro" default_fields);
    reflexivity.
Defined.

(** X5: on a validated frame, filtering the view again with the same
    queries and fields gives the view back. *)
Theorem X5_filtering_twice (re : string -> result (string -> bool))
  (df out : DataFrame) (rq cq : string) (fields : list field) :
  missing df = [] ->
  Filtered re df rq cq fields = Ok out ->
  Filtered re out rq cq fields = Ok out.
Proof.
  intros Hv H.
  destruct (Filtered_selects re df out rq cq fields Hv H) as [keep Hk].
  rewrite (Hk df eq_refl) in H. injection H as <-.
  rewrite Hk by reflexivity. cbn [columns rows].
  now rewrite filter_idem.
Qed.

Lemma X5_filtering_twice_witness :
  Filtered Re.compile_ic (mkDF required [wintink_row]) "wintink" "neuro"
    default_fields
  = Ok (mkDF required [wintink_row]).
Proof.
  apply (X5_filtering_twice Re.compile_ic two_rows
           (mkDF required [wintink_row]) "wintink" "neuro" default_fields);
    reflexivity.
Defined.

(** X6: on a validated frame the view depends on which fields are
    selected, not on the order in which they were picked or on a field
    picked twice: two selections with the same fields give the same
    result, the same exception included. *)
Theorem X6_field_order_is_irrelevant
  (re : string -> result (string -> bool))
  (df : DataFrame) (rq cq : string) (F1 F2 : list field) :
  missing df = [] ->
  (forall f, In f F1 <-> In f F2) ->
  Filtered re df rq cq F1 = Filtered re df rq cq F2.
Proof.
  intros Hv Hsame. unfold Filtered.
  destruct (recipients_filter re rq df) as [mid|] eqn:Hmid;
    cbn [bind]; [|reflexivity].
  assert (missing mid = []) as Hvm.
  { rewrite (missing_columns mid df); [exact Hv|].
    exact (recipients_filter_columns re rq df mid Hmid). }
  assert (nonempty F1 = nonempty F2) as Hne.
  { destruct F1 as [|f1 F1], F2 as [|f2 F2]; try reflexivity.
    - destruct (proj2 (Hsame f2) (or_introl eq_refl)).
    - destruct (proj1 (Hsame f1) (or_introl eq_refl)). }
  destruct (Text.truthy (Text.strip cq) && nonempty F1) eqn:Hon.
  - rewrite !content_filter_on by (assumption || now rewrite <- Hne).
    destruct (re cq) as [m|]; cbn [bind]; [|reflexivity].
    f_equal. f_equal. apply filter_ext. intros r.
    apply eq_true_iff_eq. rewrite !existsb_exists.
    split; intros [f [Hf Hm]]; exists f; (split; [now apply Hsame|exact Hm]).
  - rewrite !content_filter_off by (assumption || now rewrite <- Hne).
    reflexivity.
Qed.

Lemma X6_field_order_is_irrelevant_witness :
  Filtered Re.compile_ic two_rows "" "neuro" [Proposal; Supervisors]
  = Filtered Re.compile_ic two_rows "" "neuro"
      [Supervisors; Proposal; Supervisors].
Proof.
  apply (X6_field_order_is_irrelevant Re.compile_ic two_rows "" "neuro"
           [Proposal; Supervisors] [Supervisors; Proposal; Supervisors]).
  - reflexivity.
  - intros f. simpl. tauto.
Defined.

(** X7: on a validated frame, with the content filter switched on, the
    rows kept for the fields of [F1] and [F2] together are the rows kept
    for [F1] or kept for [F2]. *)
Theorem X7_fields_are_joined_by_or
  (re : string -> result (string -> bool))
  (df out : DataFrame) (rq cq : string) (F1 F2 : list field) :
  missing df = [] ->
  F1 <> [] -> F2 <> [] ->
  Filtered re df rq cq (F1 ++ F2) = Ok out ->
  exists out1 out2,
    Filtered re df rq cq F1 = Ok out1
    /\ Filtered re df rq cq F2 = Ok out2
    /\ forall row,
        In row (rows out) <-> In row (rows out1) \/ In row (rows out2).
Proof.
  intros Hv H1 H2 H. unfold Filtered in *.
  destruct (recipients_filter re rq df) as [mid|] eqn:Hmid;
    cbn [bind] in *; [|discriminate].
  assert (missing mid = []) as Hvm.
  { rewrite (missing_columns mid df); [exact Hv|].
    exact (recipients_filter_columns re rq df mid Hmid). }
  assert (nonempty F1 = true) as N1 by (destruct F1; [easy|reflexivity]).
  assert (nonempty F2 = true) as N2 by (destruct F2; [easy|reflexivity]).
  assert (nonempty (F1 ++ F2) = true) as N12
      by (destruct F1; [easy|reflexivity]).
  destruct (Text.truthy (Text.strip cq)) eqn:Hq.
  - rewrite content_filter_on in H |- * by (try rewrite Hq; assumption).
    rewrite (content_filter_on re cq F2 mid Hvm)
      by (rewrite Hq; assumption).
    destruct (re cq) as [m|]; cbn [bind] in *; [|discriminate].
    injection H as <-. eexists. eexists.
    split; [reflexivity|]. split; [reflexivity|].
    intros row. cbn [rows]. rewrite !filter_In, existsb_app, orb_true_iff.
    tauto.
  - rewrite content_filter_off in H |- * by now rewrite Hq.
    rewrite (content_filter_off re cq F2 mid) by now rewrite Hq.
    exists mid, mid. injection H as <-. repeat split; tauto.
Qed.

Lemma X7_fields_are_joined_by_or_witness :
  exists out1 out2,
    Filtered Re.compile_ic two_rows "" "park" [Proposal] = Ok out1
    /\ Filtered Re.compile_ic two_rows "" "park" [Supervisors] = Ok out2
    /\ forall row,
        In row (rows (mkDF required [lee_row]))
        <-> In row (rows out1) \/ In row (rows out2).
Proof.
  apply (X7_fields_are_joined_by_or Re.compile_ic two_rows
           (mkDF required [lee_row]) "" "park" [Proposal] [Supervisors]);
    try discriminate; reflexivity.
Defined.

(* ------------------------------------------------------------------ *)
(** ** The counts *)

Lemma group_thousands_filter_fuel (n : nat) :
  forall l, List.length l <= n ->
    filter not_comma (group_thousands l) = filter not_comma l.
Proof.
  induction n as [|n IH]; intros l Hlen.
  - destruct l; [reflexivity|simpl in Hlen; lia].
  - destruct l as [|a [|b [|c [|d more]]]]; try reflexivity.
    change (group_thousands (a :: b :: c :: d :: more))
      with ([a; b; c] ++ Csv.comma :: group_thousands (d :: more))%list.
    change (a :: b :: c :: d :: more) with ([a; b; c] ++ d :: more)%list.
    rewrite !filter_app. f_equal.
    change (filter not_comma (Csv.comma :: group_thousands (d :: more)))
      with (filter not_comma (group_thousands (d :: more))).
    apply IH. simpl in Hlen |- *. lia.
Qed.

Lemma group_thousands_filter (l : list ascii) :
  filter not_comma (group_thousands l) = filter not_comma l.
Proof. exact (group_thousands_filter_fuel (List.length l) l (le_n _)). Qed.

Lemma digits_not_comma (d : Decimal.uint) :
  forallb not_comma (list_ascii_of_string (NilEmpty.string_of_uint d)) = true.
Proof. induction d; simpl; auto. Qed.

Lemma parse_format_count (n : nat) : parse_count (format_count n) = Some n.
Proof.
  unfold parse_count, format_count.
  rewrite list_ascii_of_string_of_list_ascii.
  rewrite filter_rev, group_thousands_filter, <- filter_rev, rev_involutive.
  rewrite forallb_filter_id by apply digits_not_comma.
  rewrite string_of_list_ascii_of_string, NilEmpty.usu. simpl.
  now rewrite DecimalNat.Unsigned.of_to.
Qed.

Lemma group_thousands_layout_fuel (n : nat) :
  forall l, List.length l <= n -> l <> [] ->
    forallb not_comma l = true ->
    List.length (group_thousands l) mod 4 <> 0
    /\ forall i, i < List.length (group_thousands l) ->
         (nth i (group_thousands l) Csv.comma = Csv.comma <-> i mod 4 = 3).
Proof.
  induction n as [|n IH]; intros l Hlen Hne Hdig.
  - destruct l; [now elim Hne|simpl in Hlen; lia].
  - destruct l as [|a [|b [|c [|d more]]]]; [now elim Hne| | | |].
    + cbn [group_thousands List.length nth]. split; [discriminate|].
      intros [|i] Hi; [|lia]. simpl in Hdig. unfold not_comma in Hdig.
      rewrite andb_true_r, negb_true_iff, Ascii.eqb_neq in Hdig.
      split; [contradiction|discriminate].
    + cbn [group_thousands List.length]. split; [discriminate|].
      simpl in Hdig. unfold not_comma in Hdig.
      rewrite !andb_true_iff, !negb_true_iff, !Ascii.eqb_neq in Hdig.
      intros [|[|i]] Hi; [| |lia]; simpl;
        (split; [intuition congruence|discriminate]).
    + cbn [group_thousands List.length]. split; [discriminate|].
      simpl in Hdig. unfold not_comma in Hdig.
      rewrite !andb_true_iff, !negb_true_iff, !Ascii.eqb_neq in Hdig.
      intros [|[|[|i]]] Hi; [| | |lia]; simpl;
        (split; [intuition congruence|discriminate]).
    + change (group_thousands (a :: b :: c :: d :: more))
        with (a :: b :: c :: Csv.comma :: group_thousands (d :: more)).
      assert (forallb not_comma (d :: more) = true) as Hrest.
      { simpl in Hdig. rewrite !andb_true_iff in Hdig. simpl.
        now rewrite andb_true_iff. }
      destruct (IH (d :: more)) as [Hmod Hpos];
        [simpl in Hlen |- *; lia|discriminate|exact Hrest|].
      simpl in Hdig. unfold not_comma in Hdig.
      rewrite !andb_true_iff, !negb_true_iff, !Ascii.eqb_neq in Hdig.
      cbn [List.length]. split.
      { replace (S (S (S (S (List.length (group_thousands (d :: more)))))))
          with (List.length (group_thousands (d :: more)) + 1 * 4) by lia.
        now rewrite Nat.Div0.mod_add. }
      intros [|[|[|[|i]]]] Hi; cbn [nth];
        try (split; [intuition congruence|discriminate]).
      * split; reflexivity.
      * rewrite Hpos by lia.
        replace (S (S (S (S i)))) with (i + 1 * 4) by lia.
        now rewrite Nat.Div0.mod_add.
Qed.

(** X8: a count is shown as its decimal digits with a comma before every
    group of three digits from the right and nowhere else, never in
    front; taking the commas out and reading the digits gives the count
    back. *)
Theorem X8_count_format (n : nat) :
  parse_count (format_count n) = Some n
  /\ List.length (list_ascii_of_string (format_count n)) mod 4 <> 0
  /\ forall i,
      i < List.length (list_ascii_of_string (format_count n)) ->
      (nth i (rev (list_ascii_of_string (format_count n))) Csv.comma
       = Csv.comma
       <-> i mod 4 = 3).
Proof.
  split; [apply parse_format_count|].
  unfold format_count. rewrite list_ascii_of_string_of_list_ascii.
  rewrite rev_involutive, length_rev.
  set (l := rev (list_ascii_of_string
                   (NilEmpty.string_of_uint (Nat.to_uint n)))).
  apply (group_thousands_layout_fuel (List.length l) l (le_n _)).
  - subst l. intros H. apply (f_equal (@rev ascii)) in H.
    rewrite rev_involutive in H. simpl in H.
    assert (Nat.to_uint n <> Decimal.Nil) as Hn.
    { intros Hnil. pose proof (DecimalNat.Unsigned.of_to n) as E.
      rewrite Hnil in E. simpl in E. subst n. discriminate Hnil. }
    destruct (Nat.to_uint n); try discriminate. now elim Hn.
  - subst l. rewrite forallb_rev. apply digits_not_comma.
Qed.

(* ------------------------------------------------------------------ *)
(** ** How a run ends *)

Lemma required_present (df : DataFrame) :
  (forall c, In c required -> In c (columns df)) -> missing df = [].
Proof.
  intros H. destruct (missing df) as [|c rest] eqn:E; [reflexivity|].
  assert (In c (missing df)) as Hin by (rewrite E; now left).
  apply missing_spec in Hin. destruct Hin as [Hreq Hnot].
  elim Hnot. now apply H.
Qed.

Lemma Filtered_raise (re : string -> result (string -> bool))
  (df : DataFrame) (rq cq : string) (fields : list field) (e : exn) :
  missing df = [] ->
  Filtered re df rq cq fields = Raise e ->
  re (Text.strip rq) = Raise e \/ re cq = Raise e.
Proof.
  intros Hv H. unfold Filtered in H.
  destruct (recipients_filter re rq df) as [mid|e'] eqn:Hmid;
    cbn [bind] in H.
  - right.
    assert (missing mid = []) as Hvm.
    { rewrite (missing_columns mid df); [exact Hv|].
      exact (recipients_filter_columns re rq df mid Hmid). }
    destruct (Text.truthy (Text.strip cq) && nonempty fields) eqn:Hon.
    + rewrite content_filter_on in H by assumption.
      destruct (re cq); cbn [bind] in H; [discriminate|congruence].
    + rewrite content_filter_off in H by assumption. discriminate.
  - left. injection H as <-.
    destruct (Text.truthy (Text.strip rq)) eqn:Hq.
    + rewrite recipients_filter_on in Hmid by assumption.
      destruct (re (Text.strip rq)); cbn [bind] in Hmid;
        [discriminate|congruence].
    + rewrite recipients_filter_off in Hmid by assumption. discriminate.
Qed.

(** X9: when the file holds a frame with at least one row and the four
    required columns, in any order and among any others, a run either
    goes through, showing title, sidebar, both counts, the table, the
    download and the notes, or ends right after the sidebar with the
    exception the regex engine raised for the trimmed recipient query or
    for the content query; a missing column is never the cause.  When
    the engine accepts both queries the run goes through. *)
Theorem X9_run_goes_through_or_query_is_rejected
  (read_csv : string -> read) (re : string -> result (string -> bool))
  (quotes_cr : bool) (df : DataFrame) (rq cq : string)
  (fields : list field) :
  read_csv CSV_PATH = Parsed df ->
  df_empty df = false ->
  (forall c, In c required -> In c (columns df)) ->
  ((exists results table,
       Filtered re df rq cq fields = Ok results
       /\ ordered results = Ok table
       /\ script read_csv re quotes_cr rq cq fields
          = mkRun (full_page quotes_cr df results table) Completed)
   \/ (exists e,
          (re (Text.strip rq) = Raise e \/ re cq = Raise e)
          /\ script read_csv re quotes_cr rq cq fields
             = mkRun (st_title "Branch Out Science Search" :: sidebar)
                     (Uncaught e)))
  /\ ((exists m, re (Text.strip rq) = Ok m) ->
      (exists m, re cq = Ok m) ->
      ended (script read_csv re quotes_cr rq cq fields) = Completed).
Proof.
  intros Hread Hne Hreq.
  pose proof (required_present df Hreq) as Hv.
  assert ((exists results table,
              Filtered re df rq cq fields = Ok results
              /\ ordered results = Ok table
              /\ script read_csv re quotes_cr rq cq fields
                 = mkRun (full_page quotes_cr df results table) Completed)
          \/ (exists e,
                 (re (Text.strip rq) = Raise e \/ re cq = Raise e)
                 /\ script read_csv re quotes_cr rq cq fields
                    = mkRun (st_title "Branch Out Science Search" :: sidebar)
                            (Uncaught e))) as Hcases.
  { destruct (Filtered re df rq cq fields) as [results|e] eqn:HF.
    - left.
      assert (missing results = []) as Hvr.
      { rewrite (missing_columns results df); [exact Hv|].
        exact (Filtered_columns re df results rq cq fields HF). }
      eexists. eexists. split; [reflexivity|].
      split; [exact (ordered_ok results Hvr)|].
      unfold script, load_data. rewrite Hread, Hne, Hv, HF.
      rewrite (ordered_ok results Hvr). reflexivity.
    - right. exists e. split.
      + exact (Filtered_raise re df rq cq fields e Hv HF).
      + unfold script, load_data. now rewrite Hread, Hne, Hv, HF. }
  split; [exact Hcases|].
  intros [m1 H1] [m2 H2].
  destruct Hcases as [[results [table [_ [_ Hrun]]]]|[e [[He|He] _]]].
  - now rewrite Hrun.
  - congruence.
  - congruence.
Qed.

Lemma X9_run_goes_through_or_query_is_rejected_witness :
  ended (script (file_of wide_frame) Re.compile_ic false "chen" "sleep"
           default_fields)
  = Completed.
Proof.
  refine (proj2 (X9_run_goes_through_or_query_is_rejected
                   (file_of wide_frame) Re.compile_ic false wide_frame
                   "chen" "sleep" default_fields eq_refl eq_refl _) _ _).
  - intros c Hc. simpl in Hc |- *. intuition.
  - eexists. reflexivity.
  - eexists. reflexivity.
Defined.

(** X10: when the file holds a frame with no row, or with no column, the
    run shows the title and stops: nothing tells the user that the data
    is empty, and the required columns are not checked. *)
Theorem X10_empty_frame_stops_silently
  (read_csv : string -> read) (re : string -> result (string -> bool))
  (quotes_cr : bool) (df : DataFrame) (rq cq : string)
  (fields : list field) :
  read_csv CSV_PATH = Parsed df ->
  rows df = [] \/ columns df = [] ->
  script read_csv re quotes_cr rq cq fields
  = mkRun [st_title "Branch Out Science Search"] Stopped.
Proof.
  intros Hread Hempty. unfold script, load_data. rewrite Hread.
  assert (df_empty df = true) as He.
  { unfold df_empty. destruct Hempty as [-> | ->];
      [destruct (columns df)|]; reflexivity. }
  now rewrite He.
Qed.

Lemma X10_empty_frame_stops_silently_witness :
  script (file_of (mkDF ["Name"; "Year"] [])) Re.compile_ic false
    "chen" "" default_fields
  = mkRun [st_title "Branch Out Science Search"] Stopped.
Proof.
  apply (X10_empty_frame_stops_silently
           (file_of (mkDF ["Name"; "Year"] [])) Re.compile_ic false
           (mkDF ["Name"; "Year"] []) "chen" "" default_fields).
  - reflexivity.
  - now left.
Defined.

(** X11: in a run that goes through, the figure under "Matches", read
    as a number, is the number of rows of the table shown, the figure
    under "Total rows" is the number of rows of the frame, and the first
    never exceeds the second. *)
Theorem X11_counts_agree_with_table
  (read_csv : string -> read) (re : string -> result (string -> bool))
  (quotes_cr : bool) (df results : DataFrame) (rq cq : string)
  (fields : list field) :
  read_csv CSV_PATH = Parsed df ->
  df_empty df = false ->
  missing df = [] ->
  Filtered re df rq cq fields = Ok results ->
  exists table total matches,
    rendered (script read_csv re quotes_cr rq cq fields)
    = ([st_title "Branch Out Science Search"] ++ sidebar
       ++ [st_metric "Total rows" total; st_metric "Matches" matches;
           st_subheader "Results"; st_dataframe table;
           download_button quotes_cr table; st_expander "Notes" notes])%list
    /\ parse_count total = Some (List.length (rows df))
    /\ parse_count matches = Some (List.length (rows table))
    /\ List.length (rows table) <= List.length (rows df).
Proof.
  intros Hread Hne Hv HF.
  assert (missing results = []) as Hvr.
  { rewrite (missing_columns results df); [exact Hv|].
    exact (Filtered_columns re df results rq cq fields HF). }
  eexists. eexists. eexists. split; [|split; [|split]].
  - unfold script, load_data. rewrite Hread, Hne, Hv, HF.
    rewrite (ordered_ok results Hvr). reflexivity.
  - apply parse_format_count.
  - cbn [rows]. rewrite length_map. apply parse_format_count.
  - cbn [rows]. rewrite length_map.
    exact (Filtered_length re df results rq cq fields Hv HF).
Qed.

Lemma X11_counts_agree_with_table_witness :
  exists table total matches,
    rendered (script (file_of two_rows) Re.compile_ic false "lee" ""
                default_fields)
    = ([st_title "Branch Out Science Search"] ++ sidebar
       ++ [st_metric "Total rows" total; st_metric "Matches" matches;
           st_subheader "Results"; st_dataframe table;
           download_button false table; st_expander "Notes" notes])%list
    /\ parse_count total = Some (List.length (rows two_rows))
    /\ parse_count matches = Some (List.length (rows table))
    /\ List.length (rows table) <= List.length (rows two_rows).
Proof.
  apply (X11_counts_agree_with_table (file_of two_rows) Re.compile_ic false
           two_rows (mkDF required [lee_row]) "lee" "" default_fields);
    reflexivity.
Defined.

(* ------------------------------------------------------------------ *)
(** ** Plain recipient queries *)

Lemma ci_prefix_lower (q1 : list ascii) :
  forall q2 s,
    map Text.lower q1 = map Text.lower q2 ->
    Text.ci_prefix q1 s = Text.ci_prefix q2 s.
Proof.
  induction q1 as [|a q1 IH]; intros [|b q2] s H; try discriminate;
    [reflexivity|].
  injection H as Hab Hq. destruct s as [|c s]; [reflexivity|].
  cbn [Text.ci_prefix]. now rewrite Hab, (IH q2 s Hq).
Qed.

Lemma ci_find_lower (q1 q2 s : list ascii) :
  map Text.lower q1 = map Text.lower q2 ->
  Text.ci_find q1 s = Text.ci_find q2 s.
Proof.
  intros H. induction s as [|c s IH]; cbn [Text.ci_find];
    rewrite (ci_prefix_lower q1 q2 _ H); [reflexivity|now rewrite IH].
Qed.

Lemma ci_prefix_spec (q s : list ascii) :
  Text.ci_prefix q s = true
  <-> exists mid post,
        s = (mid ++ post)%list /\ map Text.lower mid = map Text.lower q.
Proof.
  revert s. induction q as [|a q IH]; intros s.
  - split; [intros _; now exists [], s|reflexivity].
  - destruct s as [|c s]; cbn [Text.ci_prefix].
    + split; [discriminate|].
      intros [[|x mid] [post [Hs Hm]]]; discriminate.
    + rewrite andb_true_iff, Ascii.eqb_eq, IH. split.
      * intros [Hac [mid [post [-> Hm]]]].
        exists (c :: mid), post. split; [reflexivity|].
        cbn [map]. now rewrite Hm, Hac.
      * intros [[|x mid] [post [Hs Hm]]]; [discriminate|].
        injection Hs as -> ->. injection Hm as Hx Hm.
        split; [now symmetry|]. now exists mid, post.
Qed.

Lemma ci_find_spec (q s : list ascii) :
  Text.ci_find q s = true
  <-> exists pre mid post,
        s = (pre ++ mid ++ post)%list
        /\ map Text.lower mid = map Text.lower q.
Proof.
  induction s as [|c s IH]; cbn [Text.ci_find];
    rewrite orb_true_iff, ci_prefix_spec.
  - split.
    + intros [[mid [post [Hs Hm]]]|]; [|discriminate].
      now exists [], mid, post.
    + intros [pre [mid [post [Hs Hm]]]]. left.
      destruct pre; [|discriminate]. now exists mid, post.
  - rewrite IH. split.
    + intros [[mid [post [Hs Hm]]]|[pre [mid [post [-> Hm]]]]].
      * now exists [], mid, post.
      * now exists (c :: pre), mid, post.
    + intros [[|x pre] [mid [post [Hs Hm]]]].
      * left. now exists mid, post.
      * right. injection Hs as -> ->. now exists pre, mid, post.
Qed.

Lemma ci_find_inner (a q b s : list ascii) :
  Text.ci_find (a ++ q ++ b)%list s = true -> Text.ci_find q s = true.
Proof.
  rewrite !ci_find_spec. intros [pre [mid [post [-> Hm]]]].
  rewrite !map_app in Hm.
  apply map_eq_app in Hm. destruct Hm as [ma [rest [-> [Ha Hrest]]]].
  apply map_eq_app in Hrest. destruct Hrest as [mq [mb [-> [Hq Hb]]]].
  exists (pre ++ ma)%list, mq, (mb ++ post)%list.
  split; [now rewrite <- !app_assoc|exact Hq].
Qed.

Lemma special_lower (c : ascii) : Re.special (Text.lower c) = Re.special c.
Proof.
  destruct c as [b0 b1 b2 b3 b4 b5 b6 b7].
  destruct b7, b6, b5, b4, b3, b2, b1, b0; reflexivity.
Qed.

Lemma plain_chars_lower (q1 q2 : list ascii) :
  map Text.lower q1 = map Text.lower q2 ->
  forallb (fun c => negb (Re.special c)) q1
  = forallb (fun c => negb (Re.special c)) q2.
Proof.
  revert q2. induction q1 as [|a q1 IH]; intros [|b q2] H;
    try discriminate; [reflexivity|].
  injection H as Hab Hq. cbn [forallb].
  rewrite <- (special_lower a), <- (special_lower b), Hab.
  now rewrite (IH q2 Hq).
Qed.

Lemma recipients_filter_plain (df : DataFrame) (rq : string) :
  missing df = [] ->
  Text.truthy (Text.strip rq) = true ->
  plain (Text.strip rq) = true ->
  recipients_filter Re.compile_ic rq df
  = Ok (mkDF (columns df)
          (filter (fun row => Text.ci_contains (Text.strip rq)
                                (text_at df COL_RECIPIENTS row))
                  (rows df))).
Proof.
  intros Hv Hq Hplain.
  rewrite (recipients_filter_on Re.compile_ic rq df Hv Hq).
  unfold Re.compile_ic. rewrite (parse_plain _ _ Hplain). cbn [bind].
  f_equal. f_equal. apply filter_ext. intros row. apply search_plain.
Qed.

Lemma truthy_chars (s : string) :
  Text.truthy s = nonempty (list_ascii_of_string s).
Proof. now destruct s. Qed.

(** X12: on a validated frame, two recipient queries that are plain
    (no character special to [re]) and differ only in the case of their
    letters once trimmed give the same result, whatever the content
    query and the fields. *)
Theorem X12_query_case_is_irrelevant (df : DataFrame) (rq1 rq2 cq : string)
  (fields : list field) :
  missing df = [] ->
  Text.truthy (Text.strip rq1) = true ->
  plain (Text.strip rq1) = true ->
  map Text.lower (list_ascii_of_string (Text.strip rq1))
  = map Text.lower (list_ascii_of_string (Text.strip rq2)) ->
  Filtered Re.compile_ic df rq1 cq fields
  = Filtered Re.compile_ic df rq2 cq fields.
Proof.
  intros Hv Hq Hplain Hlow.
  assert (Text.truthy (Text.strip rq2) = true) as Hq2.
  { rewrite truthy_chars in Hq |- *.
    destruct (list_ascii_of_string (Text.strip rq1)),
      (list_ascii_of_string (Text.strip rq2)); try discriminate; easy. }
  assert (plain (Text.strip rq2) = true) as Hplain2.
  { unfold plain in *. now rewrite <- (plain_chars_lower _ _ Hlow). }
  unfold Filtered.
  rewrite (recipients_filter_plain df rq1 Hv Hq Hplain).
  rewrite (recipients_filter_plain df rq2 Hv Hq2 Hplain2).
  f_equal. f_equal. f_equal. apply filter_ext. intros row.
  unfold Text.ci_contains. now apply ci_find_lower.
Qed.

Lemma X12_query_case_is_irrelevant_witness :
  Filtered Re.compile_ic two_rows "WINTINK" "neuro" default_fields
  = Filtered Re.compile_ic two_rows " wintink " "neuro" default_fields.
Proof.
  apply (X12_query_case_is_irrelevant two_rows "WINTINK" " wintink " "neuro"
           default_fields); reflexivity.
Defined.

(** X13: on a validated frame, when the trimmed recipient query [rq2] is
    plain and holds the trimmed query [rq1] as a part, every row of the
    view for [rq2] is a row of the view for [rq1]: typing more of a name
    can only narrow the view. *)
Theorem X13_longer_query_narrows (df out2 : DataFrame)
  (rq1 rq2 cq a b : string) (fields : list field) :
  missing df = [] ->
  Text.truthy (Text.strip rq1) = true ->
  plain (Text.strip rq2) = true ->
  Text.strip rq2 = a ++ Text.strip rq1 ++ b ->
  Filtered Re.compile_ic df rq2 cq fields = Ok out2 ->
  exists out1,
    Filtered Re.compile_ic df rq1 cq fields = Ok out1
    /\ forall row, In row (rows out2) -> In row (rows out1).
Proof.
  intros Hv Hq1 Hplain2 Hpart H2.
  assert (list_ascii_of_string (Text.strip rq2)
          = (list_ascii_of_string a ++ list_ascii_of_string (Text.strip rq1)
             ++ list_ascii_of_string b)%list) as Hchars
      by (now rewrite Hpart, !list_ascii_of_string_app).
  assert (Text.truthy (Text.strip rq2) = true) as Hq2.
  { rewrite truthy_chars in Hq1 |- *. rewrite Hchars.
    destruct (list_ascii_of_string a); [|reflexivity].
    destruct (list_ascii_of_string (Text.strip rq1)); [discriminate|].
    reflexivity. }
  assert (plain (Text.strip rq1) = true) as Hplain1.
  { unfold plain in *. rewrite Hchars, !forallb_app in Hplain2.
    apply andb_true_iff in Hplain2. destruct Hplain2 as [_ Hp].
    apply andb_true_iff in Hp. now destruct Hp. }
  unfold Filtered in *.
  rewrite (recipients_filter_plain df rq2 Hv Hq2 Hplain2) in H2.
  rewrite (recipients_filter_plain df rq1 Hv Hq1 Hplain1).
  cbn [bind] in *.
  set (mid2 := mkDF (columns df)
                 (filter (fun row => Text.ci_contains (Text.strip rq2)
                                       (text_at df COL_RECIPIENTS row))
                         (rows df))) in *.
  destruct (content_filter_selects Re.compile_ic cq fields mid2 out2)
    as [pc Hpc]; [exact Hv|exact H2|].
  rewrite (Hpc mid2 eq_refl) in H2. injection H2 as <-.
  rewrite Hpc by reflexivity. eexists. split; [reflexivity|].
  cbn [rows columns]. intros row. rewrite !filter_In.
  intros [[Hin Hc] Hp]. split; [split; [exact Hin|]|exact Hp].
  unfold Text.ci_contains in *. rewrite Hchars in Hc.
  exact (ci_find_inner _ _ _ _ Hc).
Qed.

Lemma X13_longer_query_narrows_witness :
  exists out1,
    Filtered Re.compile_ic two_rows "Win" "" default_fields = Ok out1
    /\ forall row,
        In row (rows (mkDF required [wintink_row])) -> In row (rows out1).
Proof.
  apply (X13_longer_query_narrows two_rows (mkDF required [wintink_row])
           "Win" " Alice Wintink" "" "Alice " "tink" default_fields);
    reflexivity.
Defined.

(* ------------------------------------------------------------------ *)
(** ** Queries made of white space *)

Lemma strip_spaces (s : string) : spaces s = true -> Text.strip s = "".
Proof.
  unfold spaces, Text.strip, Text.strip_chars. intros H.
  now rewrite (lstrip_spaces _ H).
Qed.

(** X14: a query made only of white space switches its filter off: with
    such a recipient query the view is the one of the content filter
    alone, with such a content query it is the one of the recipients
    filter alone. *)
Theorem X14_white_space_query_is_no_query
  (re : string -> result (string -> bool))
  (df : DataFrame) (rq cq blank : string) (fields : list field) :
  spaces blank = true ->
  Filtered re df blank cq fields = content_filter re cq fields df
  /\ Filtered re df rq blank fields = recipients_filter re rq df.
Proof.
  intros Hb. pose proof (strip_spaces blank Hb) as Hs. split.
  - unfold Filtered.
    rewrite recipients_filter_off by (now rewrite Hs). reflexivity.
  - unfold Filtered. destruct (recipients_filter re rq df); [|reflexivity].
    cbn [bind]. apply content_filter_off. now rewrite Hs.
Qed.

Lemma X14_white_space_query_is_no_query_witness :
  Filtered Re.compile_ic two_rows "   " "neuro" default_fields
  = content_filter Re.compile_ic "neuro" default_fields two_rows
  /\ Filtered Re.compile_ic two_rows "lee" "   " default_fields
     = recipients_filter Re.compile_ic "lee" two_rows.
Proof.
  apply (X14_white_space_query_is_no_query Re.compile_ic two_rows "lee"
           "neuro" "   " default_fields).
  reflexivity.
Defined.

(* ------------------------------------------------------------------ *)
(** ** More on the table and the export *)

Lemma other_cols_of_ordered (results : DataFrame) :
  other_cols (mkDF (front_cols ++ other_cols results)%list
                (map (take results (front_cols ++ other_cols results)%list)
                     (rows results)))
  = other_cols results.
Proof.
  unfold other_cols at 1. cbn [columns]. rewrite filter_app.
  change (filter (not_in front_cols) front_cols) with (@nil string).
  cbn [app]. unfold other_cols. apply filter_idem.
Qed.

(** X15: putting the columns of an ordered table in order again changes
    nothing. *)
Theorem X15_ordering_twice (results table : DataFrame) :
  missing results = [] ->
  ordered results = Ok table ->
  ordered table = Ok table.
Proof.
  intros Hv H. rewrite (ordered_ok results Hv) in H. injection H as <-.
  set (L := (front_cols ++ other_cols results)%list).
  set (table := mkDF L (map (take results L) (rows results))).
  change (ordered table = Ok table).
  assert (missing table = []) as Hvt.
  { apply required_present. intros c Hc. cbn [table columns]. subst L.
    apply in_or_app. now left. }
  rewrite (ordered_ok table Hvt).
  assert ((front_cols ++ other_cols table)%list = L) as HL
      by (subst table L; now rewrite other_cols_of_ordered).
  rewrite HL. subst table. cbn [rows]. f_equal. f_equal.
  rewrite map_map. apply map_ext. intros row.
  unfold take at 1. unfold take at 2. apply map_ext_in. intros c Hc.
  exact (take_at results (mkDF L (map (take results L) (rows results)))
           L row c eq_refl Hc).
Qed.

Lemma X15_ordering_twice_witness :
  ordered (mkDF ["Recipients"; "Supervisors"; "Proposal"; "Lay_Summary";
                 "Id"; "Year"]
             [[Val "Mia Chen"; Val "Dr Grey, Dr Wu"; Val "sleep and memory";
               Val "how sleep helps"; Val "17"; NaN]])
  = Ok (mkDF ["Recipients"; "Supervisors"; "Proposal"; "Lay_Summary";
              "Id"; "Year"]
          [[Val "Mia Chen"; Val "Dr Grey, Dr Wu"; Val "sleep and memory";
            Val "how sleep helps"; Val "17"; NaN]]).
Proof.
  apply (X15_ordering_twice wide_frame); reflexivity.
Defined.

(** X16: the bytes the run offers for download start with EF BB BF, the
    byte-order mark of UTF-8, and the four required labels, in their
    fixed order and unquoted, followed by a comma when the frame has
    more columns and by the end of the line when it has not. *)
Theorem X16_export_starts_with_required_labels (quotes_cr : bool)
  (results table : DataFrame) :
  missing results = [] ->
  ordered results = Ok table ->
  exists label rest,
    download_button quotes_cr table
    = st_download_button label
        (xef :: xbb :: xbf
         :: map byte_of_ascii
              (list_ascii_of_string
                 "Recipients,Supervisors,Proposal,Lay_Summary")
         ++ byte_of_ascii (if nonempty (other_cols results)
                           then "," else Csv.LF)%char
         :: rest)%list
        "BONF_recipients_filtered_results.csv" "text/csv".
Proof.
  intros Hv H. rewrite (ordered_ok results Hv) in H. injection H as <-.
  unfold download_button, Csv.encode_utf8_sig, Csv.to_csv.
  cbn [columns rows].
  destruct (other_cols results) as [|o os]; destruct quotes_cr;
    (eexists; eexists; reflexivity).
Qed.

Lemma X16_export_starts_with_required_labels_witness :
  exists label rest,
    download_button false
      (mkDF ["Recipients"; "Supervisors"; "Proposal"; "Lay_Summary";
             "Id"; "Year"]
         [[Val "Mia Chen"; Val "Dr Grey, Dr Wu"; Val "sleep and memory";
           Val "how sleep helps"; Val "17"; NaN]])
    = st_download_button label
        (xef :: xbb :: xbf
         :: map byte_of_ascii
              (list_ascii_of_string
                 "Recipients,Supervisors,Proposal,Lay_Summary")
         ++ byte_of_ascii (if nonempty (other_cols wide_frame)
                           then "," else Csv.LF)%char
         :: rest)%list
        "BONF_recipients_filtered_results.csv" "text/csv".
Proof.
  apply (X16_export_starts_with_required_labels false wide_frame);
    reflexivity.
Defined.

(** X17: for a frame as the loader hands it over, two views whose
    downloads hold the same bytes are the same view: the file tells the
    view apart from every other. *)
Theorem X17_download_determines_view
  (re : string -> result (string -> bool)) (quotes_cr : bool)
  (df r1 r2 t1 t2 : DataFrame) (rq1 cq1 rq2 cq2 : string)
  (F1 F2 : list field) :
  missing df = [] ->
  NoDup (columns df) ->
  rectangular df ->
  no_empty_text df ->
  Filtered re df rq1 cq1 F1 = Ok r1 -> ordered r1 = Ok t1 ->
  Filtered re df rq2 cq2 F2 = Ok r2 -> ordered r2 = Ok t2 ->
  Csv.encode_utf8_sig (Csv.to_csv quotes_cr t1)
  = Csv.encode_utf8_sig (Csv.to_csv quotes_cr t2) ->
  r1 = r2.
Proof.
  intros Hv Hnd Hrect Hcells HF1 Ho1 HF2 Ho2 Hbytes.
  assert (forall r t rq cq F,
             Filtered re df rq cq F = Ok r -> ordered r = Ok t ->
             Csv.unwrite_export (Csv.encode_utf8_sig (Csv.to_csv quotes_cr t))
             = Some t
             /\ getitems t (columns df) = Ok r) as Hback.
  { intros r t rq cq F HF Ho.
    pose proof (Filtered_columns re df r rq cq F HF) as Hcols.
    pose proof (Filtered_incl re df r rq cq F Hv HF) as Hincl.
    assert (missing r = []) as Hvr by (now rewrite (missing_columns r df)).
    rewrite (ordered_ok r Hvr) in Ho. injection Ho as <-. split.
    - apply unwrite_export_to_csv.
      + discriminate.
      + cbn [rows]. intros row Hrow. apply in_map_iff in Hrow.
        destruct Hrow as [row0 [<- _]]. discriminate.
      + intros row Hrow Hbad. cbn [rows] in Hrow.
        apply in_map_iff in Hrow. destruct Hrow as [row0 [<- Hrow0]].
        apply take_In in Hbad. destruct Hbad as [Hbad|Hbad]; [discriminate|].
        exact (Hcells row0 (Hincl row0 Hrow0) Hbad).
    - rewrite <- Hcols. apply restore_columns; [exact Hvr| |].
      + now rewrite Hcols.
      + intros row Hrow. rewrite Hcols. apply Hrect. now apply Hincl. }
  destruct (Hback r1 t1 rq1 cq1 F1 HF1 Ho1) as [Hread1 Hget1].
  destruct (Hback r2 t2 rq2 cq2 F2 HF2 Ho2) as [Hread2 Hget2].
  rewrite Hbytes, Hread2 in Hread1. injection Hread1 as <-.
  congruence.
Qed.

Lemma X17_download_determines_view_witness :
  mkDF required [wintink_row] = mkDF required [wintink_row].
Proof.
  apply (X17_download_determines_view Re.compile_ic false two_rows
           (mkDF required [wintink_row]) (mkDF required [wintink_row])
           (mkDF required [wintink_row]) (mkDF required [wintink_row])
           "wintink" "" "alice" "neuro" default_fields [Proposal]);
    try reflexivity.
  - repeat constructor; simpl; intuition discriminate.
  - intros row [<-|[<-|[]]]; reflexivity.
  - intros row [<-|[<-|[]]] H; simpl in H; intuition discriminate.
Defined.

(* ------------------------------------------------------------------ *)
(** ** What a pattern with wildcards keeps *)

Lemma match_here_spec (r : list Re.atom) :
  forall s,
    Re.match_here r s = true
    <-> exists mid post, s = (mid ++ post)%list /\ matches_atoms r mid.
Proof.
  unfold matches_atoms.
  induction r as [|a r IH]; intros s.
  - split; [intros _; exists [], s; split; [reflexivity|constructor]
           |reflexivity].
  - destruct s as [|c s]; cbn [Re.match_here].
    + split; [discriminate|].
      intros [mid [post [Hs Hm]]]. inversion Hm; subst. discriminate.
    + rewrite andb_true_iff, IH. split.
      * intros [Hac [mid [post [-> Hm]]]].
        exists (c :: mid), post. split; [reflexivity|now constructor].
      * intros [mid [post [Hs Hm]]]. inversion Hm; subst.
        injection Hs as -> ->. split; [assumption|]. now eexists; eexists.
Qed.

Lemma search_spec (r : list Re.atom) (s : list ascii) :
  Re.search r s = true
  <-> exists pre mid post,
        s = (pre ++ mid ++ post)%list /\ matches_atoms r mid.
Proof.
  induction s as [|c s IH]; cbn [Re.search];
    rewrite orb_true_iff, match_here_spec.
  - split.
    + intros [[mid [post [Hs Hm]]]|]; [|discriminate].
      now exists [], mid, post.
    + intros [pre [mid [post [Hs Hm]]]]. left.
      destruct pre; [|discriminate]. now exists mid, post.
  - rewrite IH. split.
    + intros [[mid [post [Hs Hm]]]|[pre [mid [post [-> Hm]]]]].
      * now exists [], mid, post.
      * now exists (c :: pre), mid, post.
    + intros [[|x pre] [mid [post [Hs Hm]]]].
      * left. now exists mid, post.
      * right. injection Hs as -> ->. now exists pre, mid, post.
Qed.

(** X2: on a validated frame, a recipient query that parses to a list
    of atoms (plain characters, escaped characters and [.]) keeps exactly
    the rows whose Recipients text has a stretch that matches the atoms
    one by one: a plain atom matches its character whatever the case, a
    [.] matches any character but a newline. *)
Theorem X2_wildcard_query (df : DataFrame) (rq : string)
  (atoms : list Re.atom) (fields : list field) :
  missing df = [] ->
  Text.truthy (Text.strip rq) = true ->
  Re.parse (Text.strip rq) (list_ascii_of_string (Text.strip rq)) = Ok atoms ->
  exists out,
    Filtered Re.compile_ic df rq "" fields = Ok out
    /\ forall row,
        In row (rows out)
        <-> In row (rows df)
            /\ exists pre mid post,
                 list_ascii_of_string (text_at df COL_RECIPIENTS row)
                 = (pre ++ mid ++ post)%list
                 /\ matches_atoms atoms mid.
Proof.
  intros Hv Hq Hparse. unfold Filtered.
  rewrite (recipients_filter_on Re.compile_ic rq df Hv Hq).
  unfold Re.compile_ic. rewrite Hparse. cbn [bind].
  rewrite content_filter_off by reflexivity.
  eexists. split; [reflexivity|]. intros row. cbn [rows].
  now rewrite filter_In, search_spec.
Qed.

Lemma X2_wildcard_query_witness :
  exists out,
    Filtered Re.compile_ic two_rows "b.b" "" default_fields = Ok out
    /\ forall row,
        In row (rows out)
        <-> In row (rows two_rows)
            /\ exists pre mid post,
                 list_ascii_of_string (text_at two_rows COL_RECIPIENTS row)
                 = (pre ++ mid ++ post)%list
                 /\ matches_atoms [Re.Lit "b"; Re.AnyChar; Re.Lit "b"] mid.
Proof.
  apply (X2_wildcard_query two_rows "b.b"
           [Re.Lit "b"; Re.AnyChar; Re.Lit "b"] default_fields);
    reflexivity.
Defined.
